(** * wxLanesBridge: a shallow embedding of [src/wxLanesBridge.cpp]

    The bridge is three Lua C functions ([init], [getPointer], [postEvent])
    around one process-wide static, [s_defaultEventID].  They are written
    below, statement by statement, in a small monad over the Lua state of
    the caller and the state of the process, against a model of the part
    of the Lua 5.4 C API they call (value stack, type predicates, number
    and string coercions, errors) and of the two wxWidgets facilities
    they use ([wxThreadEvent] and [wxPostEvent]).

    Layout: C integer types; Lua values and numerals; the wx event; the
    machine and the API; the bridge; calls and sequences of calls; then
    the lemmas on each function and the properties of the specification,
    each with the claim it settles. *)

From Stdlib Require Import ZArith List String Ascii Bool Lia.
From Stdlib Require Import Floats.SpecFloat.
From Stdlib Require Import Numbers.DecimalString.
Import ListNotations.
Local Open Scope string_scope.
Local Open Scope Z_scope.
Set Warnings "-register-all".

(** ** C integer types *)

Module C.

(** Conversion to a signed integer type of [bits] bits: the value is
    reduced modulo [2^bits] into [-2^(bits-1) .. 2^(bits-1) - 1]. *)
Definition wrap (bits n : Z) : Z :=
  (n + 2 ^ (bits - 1)) mod 2 ^ bits - 2 ^ (bits - 1).

(** Reduction to an unsigned type of [bits] bits. *)
Definition uwrap (bits n : Z) : Z := n mod 2 ^ bits.

(** [int] is 32 bits wide on every platform wxWidgets supports. *)
Definition int_bits : Z := 32.

(** [long] is 32 bits wide under LLP64 (Windows) and 64 under LP64. *)
Inductive data_model : Type := LLP64 | LP64.

Definition long_bits (dm : data_model) : Z :=
  match dm with LLP64 => 32 | LP64 => 64 end.

Definition to_int (n : Z) : Z := wrap int_bits n.
Definition to_long (dm : data_model) (n : Z) : Z := wrap (long_bits dm) n.

(** A [const char*] sees a byte string up to its first NUL. *)
Fixpoint c_str (s : string) : string :=
  match s with
  | EmptyString => EmptyString
  | String c r => if Ascii.eqb c zero then EmptyString else String c (c_str r)
  end.

End C.

(** ** The Lua values and the C API the bridge calls *)

Module Lua.

(** [lua_Integer] is a 64-bit signed integer. *)
Definition integer_bits : Z := 64.
Definition LUA_MININTEGER : Z := - 2 ^ 63.
Definition LUA_MAXINTEGER : Z := 2 ^ 63 - 1.

(** A Lua value.  A table is kept as its list of key/value entries (the
    first entry of a key is the one looked up); tables and userdata
    carry no metatable.  A full userdata is the address of its block,
    which Lua allocates and which therefore is never null; a light
    userdata is any address.  A function or a thread is an opaque
    identity. *)
Inductive value : Type :=
| LNil
| LBoolean (b : bool)
| LLightUserdata (p : Z)
| LInteger (i : Z)
| LFloat (n : spec_float)
| LString (s : string)
| LTable (entries : list (value * value))
| LFunction (f : string)
| LUserdata (block : positive)
| LThread (t : Z).

Definition table : Type := list (value * value).

Inductive type_tag : Type :=
| LUA_TNONE | LUA_TNIL | LUA_TBOOLEAN | LUA_TLIGHTUSERDATA | LUA_TNUMBER
| LUA_TSTRING | LUA_TTABLE | LUA_TFUNCTION | LUA_TUSERDATA | LUA_TTHREAD.

Definition type_tag_eqb (a b : type_tag) : bool :=
  match a, b with
  | LUA_TNONE, LUA_TNONE | LUA_TNIL, LUA_TNIL | LUA_TBOOLEAN, LUA_TBOOLEAN
  | LUA_TLIGHTUSERDATA, LUA_TLIGHTUSERDATA | LUA_TNUMBER, LUA_TNUMBER
  | LUA_TSTRING, LUA_TSTRING | LUA_TTABLE, LUA_TTABLE
  | LUA_TFUNCTION, LUA_TFUNCTION | LUA_TUSERDATA, LUA_TUSERDATA
  | LUA_TTHREAD, LUA_TTHREAD => true
  | _, _ => false
  end.

Definition type_of (v : value) : type_tag :=
  match v with
  | LNil => LUA_TNIL
  | LBoolean _ => LUA_TBOOLEAN
  | LLightUserdata _ => LUA_TLIGHTUSERDATA
  | LInteger _ | LFloat _ => LUA_TNUMBER
  | LString _ => LUA_TSTRING
  | LTable _ => LUA_TTABLE
  | LFunction _ => LUA_TFUNCTION
  | LUserdata _ => LUA_TUSERDATA
  | LThread _ => LUA_TTHREAD
  end.

(** [lua_typename]. *)
Definition typename (t : type_tag) : string :=
  match t with
  | LUA_TNONE => "no value"
  | LUA_TNIL => "nil"
  | LUA_TBOOLEAN => "boolean"
  | LUA_TLIGHTUSERDATA | LUA_TUSERDATA => "userdata"
  | LUA_TNUMBER => "number"
  | LUA_TSTRING => "string"
  | LUA_TTABLE => "table"
  | LUA_TFUNCTION => "function"
  | LUA_TTHREAD => "thread"
  end.

(** What a raised Lua error carries. *)
Inductive error : Type :=
| RuntimeError (msg : string)               (* luaL_error(L, msg) *)
| ArgError (arg : Z) (extramsg : string)    (* luaL_argerror(L, arg, extramsg) *)
| IndexError (t : type_tag).                (* indexing a value that is no table *)

(** *** Numerals ([lobject.c]) *)

Definition lisspace (c : ascii) : bool :=
  let n := Z.of_nat (nat_of_ascii c) in
  (n =? 32) || ((9 <=? n) && (n <=? 13)).

Definition digit_val (c : ascii) : option Z :=
  let n := Z.of_nat (nat_of_ascii c) in
  if (48 <=? n) && (n <=? 57) then Some (n - 48) else None.

(** [luaO_hexavalue] on a [lisxdigit] character. *)
Definition hexa_val (c : ascii) : option Z :=
  let n := Z.of_nat (nat_of_ascii c) in
  if (48 <=? n) && (n <=? 57) then Some (n - 48)
  else if (97 <=? n) && (n <=? 102) then Some (n - 97 + 10)
  else if (65 <=? n) && (n <=? 70) then Some (n - 65 + 10)
  else None.

Fixpoint skip_space (s : string) : string :=
  match s with
  | String c r => if lisspace c then skip_space r else s
  | EmptyString => s
  end.

(** [isneg]: an optional sign. *)
Definition isneg (s : string) : bool * string :=
  match s with
  | String "-" r => (true, r)
  | String "+" r => (false, r)
  | _ => (false, s)
  end.

(** The hexadecimal loop of [l_str2int]: the accumulator is a
    [lua_Unsigned] and wraps around. *)
Fixpoint hex_digits (s : string) (a : Z) (empty : bool) : Z * bool * string :=
  match s with
  | String c r =>
      match hexa_val c with
      | Some d => hex_digits r (C.uwrap integer_bits (a * 16 + d)) false
      | None => (a, empty, s)
      end
  | EmptyString => (a, empty, s)
  end.

Definition MAXBY10 : Z := LUA_MAXINTEGER / 10.
Definition MAXLASTD : Z := LUA_MAXINTEGER mod 10.

(** The decimal loop of [l_str2int]: [None] on overflow ("do not accept
    it as integer"). *)
Fixpoint dec_digits (s : string) (neg : bool) (a : Z) (empty : bool)
  : option (Z * bool * string) :=
  match s with
  | String c r =>
      match digit_val c with
      | Some d =>
          if (a >? MAXBY10) || ((a =? MAXBY10) && (d >? MAXLASTD + (if neg then 1 else 0)))
          then None
          else dec_digits r neg (a * 10 + d) false
      | None => Some (a, empty, s)
      end
  | EmptyString => Some (a, empty, s)
  end.

Definition l_str2int (s : string) : option Z :=
  let s := skip_space s in
  let (neg, s) := isneg s in
  let scanned :=
    match s with
    | String "0" (String x r) =>
        if Ascii.eqb x "x" || Ascii.eqb x "X"
        then Some (hex_digits r 0 true)
        else dec_digits s neg 0 true
    | _ => dec_digits s neg 0 true
    end in
  match scanned with
  | None => None
  | Some (a, empty, rest) =>
      match skip_space rest with
      | EmptyString =>
          if empty then None
          else Some (C.wrap integer_bits (if neg then 0 - a else a))
      | String _ _ => None
      end
  end.

(** [strpbrk(s, ".xXnN")]: the first of these characters in [s]. *)
Fixpoint strpbrk_mode (s : string) : option ascii :=
  match s with
  | EmptyString => None
  | String c r =>
      if Ascii.eqb c "." || Ascii.eqb c "x" || Ascii.eqb c "X"
         || Ascii.eqb c "n" || Ascii.eqb c "N"
      then Some c else strpbrk_mode r
  end.

Fixpoint has_nul (s : string) : bool :=
  match s with
  | EmptyString => false
  | String c r => Ascii.eqb c zero || has_nul r
  end.

(** The exact integer value of a float, when it has one ([F2Ieq]). *)
Definition float_exact (n : spec_float) : option Z :=
  match n with
  | S754_zero _ => Some 0
  | S754_finite s m e =>
      let mag :=
        if 0 <=? e then Some (Z.pos m * 2 ^ e)
        else if Z.pos m mod 2 ^ (- e) =? 0 then Some (Z.pos m / 2 ^ (- e))
        else None in
      match mag with
      | Some k => Some (if s then - k else k)
      | None => None
      end
  | S754_infinity _ | S754_nan => None
  end.

(** [luaV_flttointns] with mode [F2Ieq], then [lua_numbertointeger]:
    the float must be integral and fit a [lua_Integer]. *)
Definition flttointns (n : spec_float) : option Z :=
  match float_exact n with
  | Some k => if (LUA_MININTEGER <=? k) && (k <=? LUA_MAXINTEGER) then Some k else None
  | None => None
  end.

Section Runtime.

(** The two conversions Lua leaves to the C library, whose results depend
    on the platform and the locale.
    [str2d s] is what [l_str2dloc] (with the retry of [l_str2d] under the
    locale's decimal point) makes of the C string [s]: [strtod], then
    trailing white space, then the end of the string.
    [number2str n] is the text [tostringbuff] produces for the float [n]
    ("%.14g", with ".0" added when it looks like an integer). *)
Variable str2d : string -> option spec_float.
Variable number2str : spec_float -> string.

Definition l_str2d (s : string) : option spec_float :=
  match strpbrk_mode s with
  | Some c =>
      if Ascii.eqb c "n" || Ascii.eqb c "N" then None   (* reject 'inf' and 'nan' *)
      else str2d s
  | None => str2d s
  end.

(** [luaO_str2num]: a number read from a whole C string. *)
Definition luaO_str2num (s : string) : option value :=
  match l_str2int s with
  | Some i => Some (LInteger i)
  | None =>
      match l_str2d s with
      | Some n => Some (LFloat n)
      | None => None
      end
  end.

(** [l_strton]: the conversion must consume the whole Lua string, so a
    string with an embedded NUL is no numeral. *)
Definition l_strton (v : value) : option value :=
  match v with
  | LString s => if has_nul s then None else luaO_str2num s
  | _ => None
  end.

(** [luaV_tonumber_]: numbers, and strings that read as numbers. *)
Definition tonumber (v : value) : option value :=
  match v with
  | LInteger _ | LFloat _ => Some v
  | _ => l_strton v
  end.

(** [luaV_tointeger] with mode [F2Ieq]. *)
Definition tointeger (v : value) : option Z :=
  match tonumber v with
  | Some (LInteger i) => Some i
  | Some (LFloat n) => flttointns n
  | _ => None
  end.

(** [luaO_tostring] on a number. *)
Definition tostring_number (v : value) : option string :=
  match v with
  | LInteger i => Some (NilZero.string_of_int (Z.to_int i))
  | LFloat n => Some (number2str n)
  | _ => None
  end.

End Runtime.

(** *** Tables *)

Definition is_key (k : string) (v : value) : bool :=
  match v with
  | LString s => String.eqb s k
  | _ => false
  end.

(** The raw read of a string key: [LNil] when the key is absent. *)
Fixpoint getstr (k : string) (t : table) : value :=
  match t with
  | [] => LNil
  | (k', v) :: r => if is_key k k' then v else getstr k r
  end.

End Lua.

(** ** wxWidgets: the thread event and the pending-event queue *)

Module Wx.

(** Declared by wxWidgets, not by the bridge: [wxID_ANY = -1] in
    [wx/defs.h], and [typedef int wxEventType] in [wx/event.h]. *)
Definition wxID_ANY : Z := -1.

(** A [wxString] is kept as the UTF-8 bytes it was built from. *)
Inductive wxString : Type := FromUTF8 (utf8 : string).

(** [wxThreadEvent]: the event type and id of [wxEvent] and the payload of
    [wxEventBasicPayloadMixin]. *)
Record wxThreadEvent : Type := {
  m_eventType : Z;
  m_id : Z;
  m_cmdString : wxString;
  m_commandInt : Z;
  m_extraLong : Z
}.

(** [wxThreadEvent(eventType, id)]: the payload starts as the empty
    string, 0 and 0. *)
Definition new_wxThreadEvent (eventType id : Z) : wxThreadEvent :=
  {| m_eventType := eventType; m_id := id;
     m_cmdString := FromUTF8 EmptyString; m_commandInt := 0; m_extraLong := 0 |}.

Definition SetString (e : wxThreadEvent) (s : wxString) : wxThreadEvent :=
  {| m_eventType := m_eventType e; m_id := m_id e;
     m_cmdString := s; m_commandInt := m_commandInt e; m_extraLong := m_extraLong e |}.

Definition SetInt (e : wxThreadEvent) (i : Z) : wxThreadEvent :=
  {| m_eventType := m_eventType e; m_id := m_id e;
     m_cmdString := m_cmdString e; m_commandInt := i; m_extraLong := m_extraLong e |}.

Definition SetExtraLong (e : wxThreadEvent) (l : Z) : wxThreadEvent :=
  {| m_eventType := m_eventType e; m_id := m_id e;
     m_cmdString := m_cmdString e; m_commandInt := m_commandInt e; m_extraLong := l |}.

End Wx.

(** ** The machine the C functions run on *)

Import Lua.

(** A Lua state, as a running C function sees it: its stack frame (index
    1 first; on entry, the arguments), the global environment, the
    registry, and the C library conversions Lua was built over (see
    [Lua.l_str2d] and [Lua.tostring_number]). *)
Record lua_State : Type := {
  stack : list value;
  globals : table;
  registry : table;
  lua_str2d : string -> option spec_float;
  lua_number2str : spec_float -> string
}.

(** What the whole process shares, whichever Lua state (lane) is running:
    the static [s_defaultEventID] of the bridge, the memory that a native
    address is read from (the readable addresses, each with the
    pointer-sized word stored there), and the events posted so far, each
    with the object it is pending for. *)
Record process : Type := {
  s_defaultEventID : Z;
  memory : list (Z * Z);
  pending : list (Z * Wx.wxThreadEvent)
}.

(** [wxEventType s_defaultEventID = wxID_ANY;] *)
Definition process_start (mem : list (Z * Z)) : process :=
  {| s_defaultEventID := Wx.wxID_ANY; memory := mem; pending := [] |}.

(** A step of a C function either goes on, or raises a Lua error (a long
    jump out of the function: what was done to the process stays done), or
    has undefined behaviour. *)
Inductive result (A : Type) : Type :=
| Ok (a : A) (L : lua_State) (p : process)
| Raise (e : error) (p : process)
| Undefined.

Arguments Ok {A} a L p.
Arguments Raise {A} e p.
Arguments Undefined {A}.

Definition M (A : Type) : Type := lua_State -> process -> result A.

Definition ret {A : Type} (a : A) : M A := fun L p => Ok a L p.

Definition bind {A B : Type} (c : M A) (k : A -> M B) : M B :=
  fun L p =>
    match c L p with
    | Ok a L' p' => k a L' p'
    | Raise e p' => Raise e p'
    | Undefined => Undefined
    end.

Declare Scope bridge_scope.
Delimit Scope bridge_scope with bridge.
Notation "x <- c ;; k" := (bind c (fun x => k))
  (at level 61, c at next level, right associativity) : bridge_scope.
Notation "c ;; k" := (bind c (fun _ => k))
  (at level 61, right associativity) : bridge_scope.
Local Open Scope bridge_scope.

(** A Lua C function returns the number of its results. *)
Definition lua_CFunction : Type := M Z.

Definition with_stack (L : lua_State) (s : list value) : lua_State :=
  {| stack := s; globals := globals L; registry := registry L;
     lua_str2d := lua_str2d L; lua_number2str := lua_number2str L |}.

(** *** The Lua C API *)

(** [LUA_REGISTRYINDEX = -LUAI_MAXSTACK - 1000]. *)
Definition LUA_REGISTRYINDEX : Z := - 1000000 - 1000.

(** The position in the frame an index names: positive indices count from
    the bottom, negative ones from the top. *)
Definition slot (L : lua_State) (idx : Z) : option nat :=
  let top := Z.of_nat (List.length (stack L)) in
  if (1 <=? idx) && (idx <=? top) then Some (Z.to_nat (idx - 1))
  else if (idx <? 0) && (- top <=? idx) then Some (Z.to_nat (top + idx))
  else None.

(** [index2value]: [None] stands for the non-valid but acceptable index
    (type [LUA_TNONE]). *)
Definition index2value (L : lua_State) (idx : Z) : option value :=
  if idx =? LUA_REGISTRYINDEX then Some (LTable (registry L))
  else match slot L idx with
       | Some n => nth_error (stack L) n
       | None => None
       end.

Definition lua_gettop : M Z :=
  fun L p => Ok (Z.of_nat (List.length (stack L))) L p.

Definition lua_type (idx : Z) : M type_tag :=
  fun L p =>
    Ok (match index2value L idx with Some v => type_of v | None => LUA_TNONE end) L p.

Definition lua_isnil (idx : Z) : M bool :=
  t <- lua_type idx ;; ret (type_tag_eqb t LUA_TNIL).

Definition lua_istable (idx : Z) : M bool :=
  t <- lua_type idx ;; ret (type_tag_eqb t LUA_TTABLE).

Definition lua_islightuserdata (idx : Z) : M bool :=
  t <- lua_type idx ;; ret (type_tag_eqb t LUA_TLIGHTUSERDATA).

(** [lua_isuserdata]: true for a full and for a light userdata. *)
Definition lua_isuserdata (idx : Z) : M bool :=
  fun L p =>
    Ok (match index2value L idx with
        | Some (LUserdata _) | Some (LLightUserdata _) => true
        | _ => false
        end) L p.

(** [lua_isnumber]: a number, or a string convertible to a number. *)
Definition lua_isnumber (idx : Z) : M bool :=
  fun L p =>
    Ok (match index2value L idx with
        | Some v => match tonumber (lua_str2d L) v with Some _ => true | None => false end
        | None => false
        end) L p.

(** [lua_isstring]: a string, or a number (always convertible). *)
Definition lua_isstring (idx : Z) : M bool :=
  t <- lua_type idx ;; ret (type_tag_eqb t LUA_TSTRING || type_tag_eqb t LUA_TNUMBER).

(** [lua_touserdata]: the block address of a full userdata, the pointer of
    a light one, otherwise NULL. *)
Definition lua_touserdata (idx : Z) : M Z :=
  fun L p =>
    Ok (match index2value L idx with
        | Some (LUserdata block) => Z.pos block
        | Some (LLightUserdata q) => q
        | _ => 0
        end) L p.

(** [lua_tointegerx]: the integer and whether the conversion succeeded. *)
Definition lua_tointegerx (idx : Z) : M (option Z) :=
  fun L p =>
    Ok (match index2value L idx with
        | Some v => tointeger (lua_str2d L) v
        | None => None
        end) L p.

(** [lua_tointeger]: 0 when the value is not convertible. *)
Definition lua_tointeger (idx : Z) : M Z :=
  r <- lua_tointegerx idx ;; ret (match r with Some i => i | None => 0 end).

Fixpoint set_nth (n : nat) (v : value) (s : list value) : list value :=
  match s, n with
  | [], _ => []
  | _ :: r, O => v :: r
  | x :: r, S n' => x :: set_nth n' v r
  end.

(** [lua_tostring]: the bytes of a string; a number is first converted to
    a string in its stack slot; [None] is the NULL of any other value. *)
Definition lua_tostring (idx : Z) : M (option string) :=
  fun L p =>
    match index2value L idx with
    | Some (LString s) => Ok (Some s) L p
    | Some v =>
        match tostring_number (lua_number2str L) v, slot L idx with
        | Some s, Some n => Ok (Some s) (with_stack L (set_nth n (LString s) (stack L))) p
        | _, _ => Ok None L p
        end
    | None => Ok None L p
    end.

Definition lua_push (v : value) : M unit :=
  fun L p => Ok tt (with_stack L (stack L ++ [v])) p.

Definition lua_pushlightuserdata (q : Z) : M unit := lua_push (LLightUserdata q).

(** [lua_pop(L, n)]: drops the top [n] values. *)
Definition lua_pop (n : Z) : M unit :=
  fun L p => Ok tt (with_stack L (firstn (List.length (stack L) - Z.to_nat n) (stack L))) p.

Fixpoint remove_nth (n : nat) (s : list value) : list value :=
  match s, n with
  | [], _ => []
  | _ :: r, O => r
  | x :: r, S n' => x :: remove_nth n' r
  end.

(** [lua_remove]: drops the value at a valid index, shifting down those
    above it. *)
Definition lua_remove (idx : Z) : M unit :=
  fun L p =>
    match slot L idx with
    | Some n => Ok tt (with_stack L (remove_nth n (stack L))) p
    | None => Undefined
    end.

(** [lua_getfield]: pushes [t[k]] for the value [t] at the index; without
    metatables, indexing anything but a table is an error. *)
Definition lua_getfield (idx : Z) (k : string) : M unit :=
  fun L p =>
    match index2value L idx with
    | Some (LTable t) => lua_push (getstr k t) L p
    | Some v => Raise (IndexError (type_of v)) p
    | None => Raise (IndexError LUA_TNONE) p
    end.

Definition lua_getglobal (name : string) : M unit :=
  fun L p => lua_push (getstr name (globals L)) L p.

(** [luaL_error]: never returns. *)
Definition luaL_error {A : Type} (msg : string) : M A :=
  fun _ p => Raise (RuntimeError msg) p.

(** The name [luaL_typeerror] gives to the type of the actual argument. *)
Definition typearg (t : type_tag) : string :=
  match t with
  | LUA_TLIGHTUSERDATA => "light userdata"
  | _ => typename t
  end.

(** [luaL_checkinteger]: the argument as a [lua_Integer], or an argument
    error ([interror]). *)
Definition luaL_checkinteger (arg : Z) : M Z :=
  r <- lua_tointegerx arg ;;
  match r with
  | Some d => ret d
  | None =>
      isnum <- lua_isnumber arg ;;
      if isnum : bool
      then fun _ p => Raise (ArgError arg "number has no integer representation") p
      else t <- lua_type arg ;;
           fun _ p => Raise (ArgError arg ("number expected, got " ++ typearg t)) p
  end.

(** *** What the bridge does outside Lua *)

Definition get_s_defaultEventID : M Z :=
  fun L p => Ok (s_defaultEventID p) L p.

Definition set_s_defaultEventID (id : Z) : M unit :=
  fun L p => Ok tt L {| s_defaultEventID := id; memory := memory p; pending := pending p |}.

(** The word stored at a readable address. *)
Fixpoint peek (mem : list (Z * Z)) (a : Z) : option Z :=
  match mem with
  | [] => None
  | (a', w) :: r => if a' =? a then Some w else peek r a
  end.

(** [*(void** )ud]: reading where nothing readable lies is undefined. *)
Definition deref (ud : Z) : M Z :=
  fun L p =>
    match peek (memory p) ud with
    | Some w => Ok w L p
    | None => Undefined
    end.

(** [wxPostEvent(dest, event)]: a copy of the event joins the events
    pending for [dest]. *)
Definition wxPostEvent (dest : Z) (event : Wx.wxThreadEvent) : M unit :=
  fun L p =>
    Ok tt L {| s_defaultEventID := s_defaultEventID p; memory := memory p;
               pending := pending p ++ [(dest, event)] |}.

(** [wxString::FromUTF8(const char* )]: the pointer must not be NULL. *)
Definition wxString_FromUTF8 (s : option string) : M Wx.wxString :=
  match s with
  | Some utf8 => ret (Wx.FromUTF8 (C.c_str utf8))
  | None => fun _ _ => Undefined
  end.

(** ** The bridge ([src/wxLanesBridge.cpp]) *)

Definition _VERSION : string := "wxLanesBridge 1.0".

(** [bridge.init]: stores the event id, converted to [wxEventType], then
    returns the module table: the global [wxLanesBridge], or else the
    entry of [package.loaded]. *)
Definition init : lua_CFunction :=
  id <- luaL_checkinteger 1 ;;
  set_s_defaultEventID (C.to_int id) ;;
  lua_getglobal "wxLanesBridge" ;;
  isnil <- lua_isnil (-1) ;;
  (if isnil : bool then
     lua_pop 1 ;;
     lua_getfield LUA_REGISTRYINDEX "_LOADED" ;;
     lua_getfield (-1) "wxLanesBridge" ;;
     lua_remove (-2)
   else ret tt) ;;
  ret 1.

(** [bridge.getPointer]: the first word of a userdata block, as a light
    userdata. *)
Definition getPointer : lua_CFunction :=
  id <- get_s_defaultEventID ;;
  if id =? Wx.wxID_ANY then
    luaL_error "wxLanesBridge must be initialized before use."
  else
    isud <- lua_isuserdata 1 ;;
    if isud : bool then
      ud <- lua_touserdata 1 ;;
      if negb (ud =? 0) then
        obj <- deref ud ;;
        lua_pushlightuserdata obj ;;
        ret 1
      else ret 0
    else ret 0.

Section PostEvent.

(** The width of [long] is the platform's. *)
Variable dm : C.data_model.

(** The three reads of the data table in [postEvent]. *)
Definition read_s (event : Wx.wxThreadEvent) : M Wx.wxThreadEvent :=
  lua_getfield 2 "s" ;;
  isstr <- lua_isstring (-1) ;;
  event <- (if isstr : bool then
              s <- lua_tostring (-1) ;;
              w <- wxString_FromUTF8 s ;;
              ret (Wx.SetString event w)
            else ret event) ;;
  lua_pop 1 ;;
  ret event.

Definition read_i (event : Wx.wxThreadEvent) : M Wx.wxThreadEvent :=
  lua_getfield 2 "i" ;;
  isnum <- lua_isnumber (-1) ;;
  event <- (if isnum : bool then
              i <- lua_tointeger (-1) ;;
              ret (Wx.SetInt event (C.to_int i))
            else ret event) ;;
  lua_pop 1 ;;
  ret event.

Definition read_l (event : Wx.wxThreadEvent) : M Wx.wxThreadEvent :=
  lua_getfield 2 "l" ;;
  isnum <- lua_isnumber (-1) ;;
  event <- (if isnum : bool then
              l <- lua_tointeger (-1) ;;
              ret (Wx.SetExtraLong event (C.to_long dm l))
            else ret event) ;;
  lua_pop 1 ;;
  ret event.

(** [bridge.postEvent]. *)
Definition postEvent : lua_CFunction :=
  numArgs <- lua_gettop ;;
  if (numArgs <? 1) || (numArgs >? 2) then
    luaL_error "wxLanesBridge: Wrong argument count."
  else
    id <- get_s_defaultEventID ;;
    if id =? Wx.wxID_ANY then
      luaL_error "wxLanesBridge: Error - Call init() before postEvent()."
    else
      islight <- lua_islightuserdata 1 ;;
      if negb islight then
        luaL_error "wxLanesBridge: Argument 1 must be lightuserdata (e.g. a wxWindow pointer)"
      else
        notab <- (if numArgs =? 2
                  then istab <- lua_istable 2 ;; ret (negb istab)
                  else ret false) ;;
        if notab : bool then
          luaL_error "wxLanesBridge: Optional argument 2 must be a table."
        else
          win <- lua_touserdata 1 ;;
          if win =? 0 then ret 0
          else
            id <- get_s_defaultEventID ;;
            let event := Wx.new_wxThreadEvent id Wx.wxID_ANY in
            istab <- lua_istable 2 ;;
            event <- (if istab : bool then
                        event <- read_s event ;;
                        event <- read_i event ;;
                        read_l event
                      else ret event) ;;
            wxPostEvent win event ;;
            ret 0.

End PostEvent.

(** [bridge_funcs]: the functions the module table holds. *)
Inductive bridge_func : Type := f_init | f_getPointer | f_postEvent.

Definition bridge_funcs (dm : C.data_model) (f : bridge_func) : lua_CFunction :=
  match f with
  | f_init => init
  | f_getPointer => getPointer
  | f_postEvent => postEvent dm
  end.

(** *** Calls *)

(** What the caller of a C function observes: the results (the top values
    of the frame, as many as the function returned; none reads as [nil]),
    or the error raised, or nothing defined; and the process after it. *)
Inductive outcome : Type :=
| Returns (results : list value) (p : process)
| Throws (e : error) (p : process)
| Crashes.

Definition lastn (n : nat) (s : list value) : list value :=
  skipn (List.length s - n) s.

(** A call of [f] from the Lua state [L] with the arguments [args]. *)
Definition call (f : lua_CFunction) (L : lua_State) (args : list value)
  (p : process) : outcome :=
  match f (with_stack L args) p with
  | Ok n L' p' => Returns (lastn (Z.to_nat n) (stack L')) p'
  | Raise e p' => Throws e p'
  | Undefined => Crashes
  end.

(** A sequence of calls, each from some Lua state of the process: a call
    that raises is over (the script goes on, or not); after undefined
    behaviour there is no process to speak of. *)
Record invocation : Type := {
  callee : bridge_func;
  lane : lua_State;
  arguments : list value
}.

Definition after_call (o : outcome) : option process :=
  match o with
  | Returns _ p | Throws _ p => Some p
  | Crashes => None
  end.

Definition invoke (dm : C.data_model) (c : invocation) (p : process) : outcome :=
  call (bridge_funcs dm (callee c)) (lane c) (arguments c) p.

Fixpoint run (dm : C.data_model) (cs : list invocation) (p : process)
  : option process :=
  match cs with
  | [] => Some p
  | c :: r =>
      match after_call (invoke dm c p) with
      | Some p' => run dm r p'
      | None => None
      end
  end.

(** The module is initialised when the static no longer holds the
    sentinel. *)
Definition initialized (p : process) : bool :=
  negb (s_defaultEventID p =? Wx.wxID_ANY).

(** ** Vocabulary of the statements *)

(** The five messages of the bridge, as the source spells them. *)
Definition msg_uninit_getPointer : string :=
  "wxLanesBridge must be initialized before use.".
Definition msg_count : string := "wxLanesBridge: Wrong argument count.".
Definition msg_uninit_postEvent : string :=
  "wxLanesBridge: Error - Call init() before postEvent().".
Definition msg_arg1 : string :=
  "wxLanesBridge: Argument 1 must be lightuserdata (e.g. a wxWindow pointer)".
Definition msg_arg2 : string := "wxLanesBridge: Optional argument 2 must be a table.".

(** The process with another stored event id, and with one more pending
    event. *)
Definition store_id (id : Z) (p : process) : process :=
  {| s_defaultEventID := id; memory := memory p; pending := pending p |}.

Definition enqueue (dest : Z) (ev : Wx.wxThreadEvent) (p : process) : process :=
  {| s_defaultEventID := s_defaultEventID p; memory := memory p;
     pending := pending p ++ [(dest, ev)] |}.

(** The kinds of argument the bridge tells apart: a wrapper is a full
    userdata, a plain address a light one. *)
Definition is_wrapper (v : value) : bool :=
  match v with LUserdata _ => true | _ => false end.

Definition is_light (v : value) : bool :=
  match v with LLightUserdata _ => true | _ => false end.

Definition is_userdata (v : value) : bool := is_wrapper v || is_light v.

Definition is_table (v : value) : bool :=
  match v with LTable _ => true | _ => false end.

(** The keys [postEvent] reads. *)
Definition recognized (e : value * value) : bool :=
  is_key "s" (fst e) || is_key "i" (fst e) || is_key "l" (fst e).

(** [init] after its store: the fetch of the module table. *)
Definition fetch_module : M Z :=
  lua_getglobal "wxLanesBridge" ;;
  isnil <- lua_isnil (-1) ;;
  (if isnil : bool then
     lua_pop 1 ;;
     lua_getfield LUA_REGISTRYINDEX "_LOADED" ;;
     lua_getfield (-1) "wxLanesBridge" ;;
     lua_remove (-2)
   else ret tt) ;;
  ret 1.

(** A step that ends, and ends in the process [p]. *)
Definition keeps {A : Type} (p : process) (r : result A) : Prop :=
  match r with
  | Ok _ _ p' | Raise _ p' => p' = p
  | Undefined => False
  end.

(** The effect of [read_s], [read_i] and [read_l] on the event, as a
    function of the value the table holds under the key. *)
Definition payload_s (L : lua_State) (v : value) (ev : Wx.wxThreadEvent)
  : Wx.wxThreadEvent :=
  match v with
  | LString s => Wx.SetString ev (Wx.FromUTF8 (C.c_str s))
  | LInteger _ | LFloat _ =>
      match tostring_number (lua_number2str L) v with
      | Some s => Wx.SetString ev (Wx.FromUTF8 (C.c_str s))
      | None => ev
      end
  | _ => ev
  end.

Definition integer_or_0 (L : lua_State) (v : value) : Z :=
  match tointeger (lua_str2d L) v with Some i => i | None => 0 end.

Definition payload_i (L : lua_State) (v : value) (ev : Wx.wxThreadEvent)
  : Wx.wxThreadEvent :=
  match tonumber (lua_str2d L) v with
  | Some _ => Wx.SetInt ev (C.to_int (integer_or_0 L v))
  | None => ev
  end.

Definition payload_l (dm : C.data_model) (L : lua_State) (v : value)
  (ev : Wx.wxThreadEvent) : Wx.wxThreadEvent :=
  match tonumber (lua_str2d L) v with
  | Some _ => Wx.SetExtraLong ev (C.to_long dm (integer_or_0 L v))
  | None => ev
  end.

(** The event [postEvent] builds from the data table [t]. *)
Definition built (dm : C.data_model) (L : lua_State) (t : table) (id : Z)
  : Wx.wxThreadEvent :=
  payload_l dm L (getstr "l" t)
    (payload_i L (getstr "i" t)
       (payload_s L (getstr "s" t) (Wx.new_wxThreadEvent id Wx.wxID_ANY))).

(** Every way a call of [postEvent] can end. *)
Inductive postEvent_ends (args : list value) (p : process) : outcome -> Prop :=
| ends_error msg : postEvent_ends args p (Throws (RuntimeError msg) p)
| ends_null rest :
    args = LLightUserdata 0 :: rest ->
    postEvent_ends args p (Returns [] p)
| ends_posted q rest ev :
    args = LLightUserdata q :: rest -> q <> 0 ->
    Wx.m_eventType ev = s_defaultEventID p ->
    postEvent_ends args p (Returns [] (enqueue q ev p)).

(** An [init] call that stores the sentinel. *)
Definition resets (c : invocation) : bool :=
  match callee c, nth_error (arguments c) 0 with
  | f_init, Some v =>
      match tointeger (lua_str2d (lane c)) v with
      | Some id => C.to_int id =? Wx.wxID_ANY
      | None => false
      end
  | _, _ => false
  end.

(** *** A small world for the examples *)

(** The table [luaopen_wxLanesBridge] returns: [bridge_funcs] and the
    version string. *)
Definition module_table : table :=
  [ (LString "init", LFunction "init");
    (LString "getPointer", LFunction "getPointer");
    (LString "postEvent", LFunction "postEvent");
    (LString "_VERSION", LString _VERSION) ].

(** A Lua state after [require "wxLanesBridge"], with no global of that
    name; under its C library no string reads as a float (the examples
    pass none). *)
Definition plain_lane : lua_State :=
  {| stack := [];
     globals := [];
     registry := [(LString "_LOADED", LTable [(LString "wxLanesBridge", LTable module_table)])];
     lua_str2d := fun _ => None;
     lua_number2str := fun _ => EmptyString |}.

(** Two wrapper blocks, at 4096 holding the address 43981 (0xABCD) and at
    8192 holding NULL, and the object at 43981, whose first word is
    28672. *)
Definition example_memory : list (Z * Z) :=
  [(4096, 43981); (8192, 0); (43981, 28672)].

Definition unconfigured : process := process_start example_memory.

Definition configured : process := store_id 7 unconfigured.

Definition configure (id : Z) : invocation :=
  {| callee := f_init; lane := plain_lane; arguments := [LInteger id] |}.

(** A worker's [getPointer] on the wrapper at 4096, and the data table of
    a finished job. *)
Definition probe : invocation :=
  {| callee := f_getPointer; lane := plain_lane; arguments := [LUserdata 4096] |}.

Definition scenario_payload : table :=
  [(LString "s", LString "done"); (LString "i", LInteger 1); (LString "l", LInteger 1000)].

(** ** Opening the module ([luaopen_wxLanesBridge]) *)

(** [t[k] = v] on a table kept as its entries: the entry that is looked
    up is the one replaced; a new key is added at the end. *)
Fixpoint setstr (k : string) (v : value) (t : table) : table :=
  match t with
  | [] => [(LString k, v)]
  | (k', v') :: r =>
      if is_key k k' then (k', v) :: r else (k', v') :: setstr k v r
  end.

Definition with_registry (L : lua_State) (r : table) : lua_State :=
  {| stack := stack L; globals := globals L; registry := r;
     lua_str2d := lua_str2d L; lua_number2str := lua_number2str L |}.

(** [lua_setfield]: [t[k] = v] for the value [t] at the index and the
    value [v] on top of the stack, which is popped.  The table is the
    one in the stack slot (the functions here hold no second reference
    to it); calling it on an empty frame is undefined. *)
Definition lua_setfield (idx : Z) (k : string) : M unit :=
  fun L p =>
    match index2value L (-1) with
    | None => Undefined
    | Some v =>
        if idx =? LUA_REGISTRYINDEX
        then lua_pop 1 (with_registry L (setstr k v (registry L))) p
        else match index2value L idx, slot L idx with
             | Some (LTable t), Some n =>
                 lua_pop 1 (with_stack L (set_nth n (LTable (setstr k v t)) (stack L))) p
             | Some v', _ => Raise (IndexError (type_of v')) p
             | None, _ => Raise (IndexError LUA_TNONE) p
             end
    end.

(** The C function a [bridge_func] stands for, as the identity of the
    function value Lua holds. *)
Definition cfunction_name (f : bridge_func) : string :=
  match f with
  | f_init => "init"
  | f_getPointer => "getPointer"
  | f_postEvent => "postEvent"
  end.

(** The [luaL_Reg] array [bridge_funcs], up to its sentinel. *)
Definition bridge_reg : list (string * bridge_func) :=
  [("init", f_init); ("getPointer", f_getPointer); ("postEvent", f_postEvent)].

Definition lua_createtable : M unit := lua_push (LTable []).

Definition lua_pushcfunction (f : bridge_func) : M unit :=
  lua_push (LFunction (cfunction_name f)).

Definition lua_pushliteral (s : string) : M unit := lua_push (LString s).

(** [luaL_setfuncs(L, l, 0)]: each function is pushed and stored under
    its name in the table below it. *)
Fixpoint luaL_setfuncs (l : list (string * bridge_func)) : M unit :=
  match l with
  | [] => ret tt
  | (name, func) :: r =>
      lua_pushcfunction func ;;
      lua_setfield (-2) name ;;
      luaL_setfuncs r
  end.

(** [luaL_newlib]: a new table with the functions of the array (the
    version check of [luaL_checkversion] is taken to pass). *)
Definition luaL_newlib (l : list (string * bridge_func)) : M unit :=
  lua_createtable ;; luaL_setfuncs l.

Definition luaopen_wxLanesBridge : lua_CFunction :=
  luaL_newlib bridge_reg ;;
  lua_pushliteral _VERSION ;;
  lua_setfield (-2) "_VERSION" ;;
  ret 1.

(** *** Vocabulary of the further statements *)


(** A [postEvent] call on a target alone. *)
Definition ring (L : lua_State) (q : Z) : invocation :=
  {| callee := f_postEvent; lane := L; arguments := [LLightUserdata q] |}.

(** The range of a signed C integer type of [bits] bits. *)
Definition fits (bits n : Z) : Prop := - 2 ^ (bits - 1) <= n < 2 ^ (bits - 1).

(** A worker's Lua state: as [plain_lane], after its own [require]. *)
Definition loaded_lane (L : lua_State) (m : value) : Prop :=
  getstr "wxLanesBridge" (globals L) = LNil
  /\ exists t, getstr "_LOADED" (registry L) = LTable t
               /\ getstr "wxLanesBridge" t = m.

(** ** The frame of a C function: indices *)

Local Open Scope list_scope.

Lemma slot_first L a s : stack L = a :: s -> slot L 1 = Some 0%nat.
Proof.
  intros E. unfold slot. rewrite E. cbn [List.length].
  replace (1 <=? Z.of_nat (S (List.length s))) with true by (symmetry; apply Z.leb_le; lia).
  reflexivity.
Qed.

Lemma slot_second L a b s : stack L = a :: b :: s -> slot L 2 = Some 1%nat.
Proof.
  intros E. unfold slot. rewrite E. cbn [List.length].
  replace (2 <=? Z.of_nat (S (S (List.length s)))) with true by (symmetry; apply Z.leb_le; lia).
  reflexivity.
Qed.

Lemma slot_top L s x : stack L = s ++ [x] -> slot L (-1) = Some (List.length s).
Proof.
  intros E. unfold slot. rewrite E, length_app. cbn [List.length].
  replace (1 <=? -1) with false by reflexivity. cbn [andb].
  replace (-1 <? 0) with true by reflexivity.
  replace (- Z.of_nat (List.length s + 1) <=? -1) with true by (symmetry; apply Z.leb_le; lia).
  cbn [andb]. f_equal. lia.
Qed.

Lemma slot_under L s x y : stack L = s ++ [x; y] -> slot L (-2) = Some (List.length s).
Proof.
  intros E. unfold slot. rewrite E, length_app. cbn [List.length].
  replace (1 <=? -2) with false by reflexivity. cbn [andb].
  replace (-2 <? 0) with true by reflexivity.
  replace (- Z.of_nat (List.length s + 2) <=? -2) with true by (symmetry; apply Z.leb_le; lia).
  cbn [andb]. f_equal. lia.
Qed.

Lemma nth_error_middle (s : list value) x r : nth_error (s ++ x :: r) (List.length s) = Some x.
Proof. induction s; cbn; auto. Qed.

Lemma remove_nth_middle s x r : remove_nth (List.length s) (s ++ x :: r) = s ++ r.
Proof. induction s; cbn; congruence. Qed.

Lemma set_nth_middle s v x r : set_nth (List.length s) v (s ++ x :: r) = s ++ v :: r.
Proof. induction s; cbn; congruence. Qed.

Lemma pop_push (s : list value) x :
  firstn (List.length (s ++ [x]) - Z.to_nat 1) (s ++ [x]) = s.
Proof.
  rewrite length_app. cbn [List.length].
  replace (List.length s + 1 - Z.to_nat 1)%nat with (List.length s + 0)%nat by lia.
  rewrite firstn_app_2. cbn. apply app_nil_r.
Qed.

Lemma index_top L s x : stack L = s ++ [x] -> index2value L (-1) = Some x.
Proof.
  intros E. unfold index2value. replace (-1 =? LUA_REGISTRYINDEX) with false by reflexivity.
  rewrite (slot_top L s x E), E. apply nth_error_middle.
Qed.

Lemma index_first L a s : stack L = a :: s -> index2value L 1 = Some a.
Proof.
  intros E. unfold index2value. replace (1 =? LUA_REGISTRYINDEX) with false by reflexivity.
  rewrite (slot_first L a s E), E. reflexivity.
Qed.

Lemma index_second L a b s : stack L = a :: b :: s -> index2value L 2 = Some b.
Proof.
  intros E. unfold index2value. replace (2 =? LUA_REGISTRYINDEX) with false by reflexivity.
  rewrite (slot_second L a b s E), E. reflexivity.
Qed.

Lemma index_none L idx : stack L = [] -> idx <> LUA_REGISTRYINDEX -> index2value L idx = None.
Proof.
  intros E N. unfold index2value, slot. rewrite E.
  apply Z.eqb_neq in N. rewrite N. cbn [List.length Z.of_nat].
  destruct (1 <=? idx) eqn:A, (idx <=? 0) eqn:B, (idx <? 0) eqn:C0, (- 0 <=? idx) eqn:D; cbn; try reflexivity; lia.
Qed.

(** ** Running the API by rewriting *)

Ltac api :=
  cbv beta iota delta
    [bind ret lua_gettop lua_type lua_isnil lua_istable lua_islightuserdata
     lua_isuserdata lua_isnumber lua_isstring lua_touserdata lua_tointegerx
     lua_tointeger lua_push lua_pushlightuserdata lua_getglobal luaL_error
     luaL_checkinteger get_s_defaultEventID set_s_defaultEventID wxPostEvent].

Ltac frame := cbn [stack globals registry lua_str2d lua_number2str with_stack].

(** ** [init] *)

Lemma index_registry L : index2value L LUA_REGISTRYINDEX = Some (LTable (registry L)).
Proof. reflexivity. Qed.

Lemma fetch_module_keeps L p : keeps p (fetch_module L p).
Proof.
  unfold fetch_module. api.
  erewrite index_top by reflexivity.
  destruct (type_tag_eqb (type_of (getstr "wxLanesBridge" (globals L))) LUA_TNIL);
    [|reflexivity].
  unfold lua_pop. frame. rewrite pop_push.
  unfold lua_getfield. rewrite index_registry. api. frame.
  erewrite index_top by reflexivity.
  destruct (getstr "_LOADED" (registry L)); try reflexivity.
  unfold lua_remove. rewrite <- app_assoc. cbn [app].
  erewrite slot_under by reflexivity. reflexivity.
Qed.

Lemma init_stores L v rest p id :
  tointeger (lua_str2d L) v = Some id ->
  after_call (call init L (v :: rest) p) = Some (store_id (C.to_int id) p).
Proof.
  intros H. unfold call.
  change init with (id <- luaL_checkinteger 1 ;; set_s_defaultEventID (C.to_int id) ;; fetch_module).
  api. erewrite index_first by reflexivity. frame. rewrite H.
  fold (store_id (C.to_int id) p).
  pose proof (fetch_module_keeps (with_stack L (v :: rest)) (store_id (C.to_int id) p)) as K.
  destruct (fetch_module _ _); cbn in K; [subst; reflexivity ..| contradiction].
Qed.

Lemma checkinteger_fails L p arg :
  match index2value L arg with
  | Some v => tointeger (lua_str2d L) v
  | None => None
  end = None ->
  exists msg, luaL_checkinteger arg L p = Raise (ArgError arg msg) p.
Proof.
  intros H. api. rewrite H.
  match goal with |- context [if ?b then _ else _] => destruct b end;
    eexists; reflexivity.
Qed.

Lemma init_rejects L args p :
  match nth_error args 0 with
  | Some v => tointeger (lua_str2d L) v = None
  | None => True
  end ->
  exists msg, call init L args p = Throws (ArgError 1 msg) p.
Proof.
  intros H. unfold call, init.
  destruct (checkinteger_fails (with_stack L args) p 1) as [msg E].
  - destruct args as [|v rest]; cbn [nth_error] in H.
    + rewrite index_none by (reflexivity || discriminate). reflexivity.
    + erewrite index_first by reflexivity. exact H.
  - exists msg. unfold bind at 1. rewrite E. reflexivity.
Qed.

(** ** [getPointer] *)

Lemma lastn_0 s : lastn 0 s = [].
Proof. unfold lastn. rewrite Nat.sub_0_r. apply skipn_all. Qed.

Lemma lastn_push s x : lastn 1 (s ++ [x]) = [x].
Proof.
  unfold lastn. rewrite length_app. cbn [List.length].
  replace (List.length s + 1 - 1)%nat with (List.length s) by lia.
  rewrite skipn_app, skipn_all, Nat.sub_diag. reflexivity.
Qed.

Lemma getPointer_uninit L args p :
  s_defaultEventID p = Wx.wxID_ANY ->
  call getPointer L args p = Throws (RuntimeError msg_uninit_getPointer) p.
Proof. intros E. unfold call, getPointer. api. rewrite E. reflexivity. Qed.

Lemma getPointer_wrapper L block rest p :
  initialized p = true ->
  call getPointer L (LUserdata block :: rest) p =
    match peek (memory p) (Z.pos block) with
    | Some X => Returns [LLightUserdata X] p
    | None => Crashes
    end.
Proof.
  unfold initialized. intros I. apply negb_true_iff in I.
  unfold call, getPointer. api. rewrite I.
  repeat (erewrite index_first by reflexivity; cbv beta iota).
  cbn [negb Z.eqb]. unfold deref. destruct (peek (memory p) (Z.pos block)); [|reflexivity].
  frame. rewrite (lastn_push (LUserdata block :: rest)). reflexivity.
Qed.

Lemma getPointer_light L q rest p :
  initialized p = true ->
  call getPointer L (LLightUserdata q :: rest) p =
    if q =? 0 then Returns [] p
    else match peek (memory p) q with
         | Some X => Returns [LLightUserdata X] p
         | None => Crashes
         end.
Proof.
  unfold initialized. intros I. apply negb_true_iff in I.
  unfold call, getPointer. api. rewrite I.
  repeat (erewrite index_first by reflexivity; cbv beta iota).
  destruct (q =? 0); cbn [negb].
  - rewrite lastn_0. reflexivity.
  - unfold deref. destruct (peek (memory p) q); [|reflexivity].
    frame. rewrite (lastn_push (LLightUserdata q :: rest)). reflexivity.
Qed.

Lemma getPointer_other L args p :
  initialized p = true ->
  match nth_error args 0 with
  | Some v => is_userdata v = false
  | None => True
  end ->
  call getPointer L args p = Returns [] p.
Proof.
  unfold initialized. intros I H. apply negb_true_iff in I.
  unfold call, getPointer. api. rewrite I.
  destruct args as [|v rest]; cbn [nth_error] in H.
  - rewrite index_none by (reflexivity || discriminate). rewrite lastn_0. reflexivity.
  - erewrite index_first by reflexivity.
    destruct v; try discriminate H; rewrite lastn_0; reflexivity.
Qed.

(** ** [postEvent] *)

Ltac stack_step :=
  first [ erewrite index_first by reflexivity
        | erewrite index_second by reflexivity
        | erewrite index_top by reflexivity
        | erewrite slot_top by reflexivity
        | rewrite index_none by (reflexivity || discriminate)
        | rewrite pop_push
        | rewrite set_nth_middle ];
  cbv beta iota; frame.

Lemma read_s_eq ev L a t p :
  read_s ev (with_stack L [a; LTable t]) p =
    Ok (payload_s L (getstr "s" t) ev) (with_stack L [a; LTable t]) p.
Proof.
  unfold read_s, lua_getfield, lua_tostring, lua_pop, wxString_FromUTF8, payload_s. api.
  repeat stack_step.
  destruct (getstr "s" t); cbn [type_of type_tag_eqb orb tostring_number];
    repeat stack_step; reflexivity.
Qed.

Lemma read_i_eq ev L a t p :
  read_i ev (with_stack L [a; LTable t]) p =
    Ok (payload_i L (getstr "i" t) ev) (with_stack L [a; LTable t]) p.
Proof.
  unfold read_i, lua_getfield, lua_pop, payload_i, integer_or_0. api.
  repeat stack_step.
  destruct (tonumber (lua_str2d L) (getstr "i" t)); repeat stack_step; reflexivity.
Qed.

Lemma read_l_eq dm ev L a t p :
  read_l dm ev (with_stack L [a; LTable t]) p =
    Ok (payload_l dm L (getstr "l" t) ev) (with_stack L [a; LTable t]) p.
Proof.
  unfold read_l, lua_getfield, lua_pop, payload_l, integer_or_0. api.
  repeat stack_step.
  destruct (tonumber (lua_str2d L) (getstr "l" t)); repeat stack_step; reflexivity.
Qed.

Lemma postEvent_count dm L args p :
  (List.length args < 1 \/ 2 < List.length args)%nat ->
  call (postEvent dm) L args p = Throws (RuntimeError msg_count) p.
Proof.
  intros H. unfold call, postEvent. api. frame.
  replace ((Z.of_nat (List.length args) <? 1) || (Z.of_nat (List.length args) >? 2)) with true.
  - reflexivity.
  - symmetry. apply orb_true_iff. rewrite Z.ltb_lt, Z.gtb_ltb, Z.ltb_lt. lia.
Qed.

Lemma postEvent_uninit dm L args p :
  (1 <= List.length args <= 2)%nat ->
  s_defaultEventID p = Wx.wxID_ANY ->
  call (postEvent dm) L args p = Throws (RuntimeError msg_uninit_postEvent) p.
Proof.
  intros H E. unfold call, postEvent. api. frame.
  replace ((Z.of_nat (List.length args) <? 1) || (Z.of_nat (List.length args) >? 2)) with false.
  - rewrite E. reflexivity.
  - symmetry. apply orb_false_iff. rewrite Z.ltb_ge, Z.gtb_ltb, Z.ltb_ge. lia.
Qed.

Lemma postEvent_arg1 dm L v rest p :
  (List.length rest <= 1)%nat ->
  initialized p = true ->
  is_light v = false ->
  call (postEvent dm) L (v :: rest) p = Throws (RuntimeError msg_arg1) p.
Proof.
  unfold initialized. intros H I N. apply negb_true_iff in I.
  unfold call, postEvent. api. frame.
  replace ((Z.of_nat (List.length (v :: rest)) <? 1) || (Z.of_nat (List.length (v :: rest)) >? 2)) with false.
  - rewrite I. repeat stack_step. destruct v; try discriminate N; reflexivity.
  - symmetry. apply orb_false_iff. rewrite Z.ltb_ge, Z.gtb_ltb, Z.ltb_ge. cbn [List.length]. lia.
Qed.

Ltac exec :=
  repeat first
    [ stack_step
    | progress cbn [type_of type_tag_eqb negb andb orb Z.eqb Pos.eqb Z.ltb Z.gtb
                    Z.compare Pos.compare Pos.compare_cont List.length Z.of_nat
                    Pos.of_succ_nat Pos.succ] ].

Lemma postEvent_arg2 dm L q v p :
  initialized p = true ->
  is_table v = false ->
  call (postEvent dm) L [LLightUserdata q; v] p = Throws (RuntimeError msg_arg2) p.
Proof.
  unfold initialized. intros I N. apply negb_true_iff in I.
  unfold call, postEvent. api. frame. exec. rewrite I. exec.
  destruct v; try discriminate N; reflexivity.
Qed.

Lemma postEvent_bare dm L q p :
  initialized p = true ->
  call (postEvent dm) L [LLightUserdata q] p =
    Returns [] (if q =? 0 then p
                else enqueue q (Wx.new_wxThreadEvent (s_defaultEventID p) Wx.wxID_ANY) p).
Proof.
  unfold initialized. intros I. apply negb_true_iff in I.
  unfold call, postEvent. api. frame. exec. rewrite I. exec.
  unfold index2value. cbn. destruct (q =? 0); reflexivity.
Qed.

Lemma postEvent_table dm L q t p :
  initialized p = true ->
  call (postEvent dm) L [LLightUserdata q; LTable t] p =
    Returns [] (if q =? 0 then p
                else enqueue q (built dm L t (s_defaultEventID p)) p).
Proof.
  unfold initialized. intros I. apply negb_true_iff in I.
  unfold call, postEvent. api. frame. exec. rewrite I. exec.
  destruct (q =? 0); [reflexivity|]. exec.
  rewrite read_s_eq, read_i_eq, read_l_eq. reflexivity.
Qed.

Lemma payload_s_kind L v ev :
  Wx.m_eventType (payload_s L v ev) = Wx.m_eventType ev
  /\ Wx.m_commandInt (payload_s L v ev) = Wx.m_commandInt ev.
Proof. destruct v; cbn; auto. Qed.

Lemma payload_i_kind L v ev : Wx.m_eventType (payload_i L v ev) = Wx.m_eventType ev.
Proof. unfold payload_i. destruct (tonumber _ v); reflexivity. Qed.

Lemma payload_l_kind dm L v ev :
  Wx.m_eventType (payload_l dm L v ev) = Wx.m_eventType ev
  /\ Wx.m_commandInt (payload_l dm L v ev) = Wx.m_commandInt ev.
Proof. unfold payload_l. destruct (tonumber _ v); auto. Qed.

Lemma built_kind dm L t id : Wx.m_eventType (built dm L t id) = id.
Proof.
  unfold built.
  rewrite (proj1 (payload_l_kind _ _ _ _)), payload_i_kind, (proj1 (payload_s_kind _ _ _)).
  reflexivity.
Qed.

Lemma postEvent_total dm L args p : postEvent_ends args p (call (postEvent dm) L args p).
Proof.
  destruct (Nat.le_gt_cases 1 (List.length args)) as [A|A];
    [destruct (Nat.le_gt_cases (List.length args) 2) as [B|B]|].
  2,3: rewrite postEvent_count by lia; constructor.
  destruct (initialized p) eqn:I.
  2: { rewrite postEvent_uninit; [constructor | lia |].
       unfold initialized in I. apply negb_false_iff, Z.eqb_eq in I. exact I. }
  destruct args as [|v rest]; [cbn in A; lia|].
  destruct (is_light v) eqn:V.
  2: { rewrite postEvent_arg1; [constructor | cbn in B; lia | assumption ..]. }
  destruct v; try discriminate V.
  destruct rest as [|w rest].
  - rewrite postEvent_bare by assumption.
    destruct (Z.eqb_spec p0 0) as [->|N].
    + econstructor 2; reflexivity.
    + econstructor 3; [reflexivity | assumption | reflexivity].
  - destruct rest; [|cbn in B; lia].
    destruct (is_table w) eqn:W.
    2: { rewrite postEvent_arg2 by assumption. constructor. }
    destruct w; try discriminate W.
    rewrite postEvent_table by assumption.
    destruct (Z.eqb_spec p0 0) as [->|N].
    + econstructor 2; reflexivity.
    + econstructor 3; [reflexivity | assumption | apply built_kind].
Qed.

(** ** Sequences of calls *)

(** Every way a call of [getPointer] can end. *)
Lemma getPointer_total L args p :
  call getPointer L args p = Crashes
  \/ (exists e, call getPointer L args p = Throws e p)
  \/ (exists r, call getPointer L args p = Returns r p).
Proof.
  destruct (initialized p) eqn:I.
  2: { right; left. eexists. apply getPointer_uninit.
       unfold initialized in I. apply negb_false_iff, Z.eqb_eq in I. exact I. }
  destruct args as [|v rest].
  - right; right. eexists. apply getPointer_other; cbn; auto.
  - destruct v;
      try (right; right; eexists; apply getPointer_other; cbn; auto; fail).
    + rewrite getPointer_light by assumption.
      destruct (p0 =? 0); [right; right; eauto|].
      destruct (peek (memory p) p0); [right; right; eauto | left; reflexivity].
    + rewrite getPointer_wrapper by assumption.
      destruct (peek (memory p) (Z.pos block)); [right; right; eauto | left; reflexivity].
Qed.

Lemma other_calls_keep_id dm c p p' :
  callee c <> f_init ->
  after_call (invoke dm c p) = Some p' ->
  s_defaultEventID p' = s_defaultEventID p /\ memory p' = memory p.
Proof.
  intros N. unfold invoke. destruct (callee c); [congruence| |]; cbn [bridge_funcs].
  - destruct (getPointer_total (lane c) (arguments c) p) as [E|[[e E]|[r E]]];
      rewrite E; cbn; intros R; inversion R; subst; auto.
  - destruct (postEvent_total dm (lane c) (arguments c) p); cbn;
      intros R; inversion R; subst; auto.
Qed.

Lemma run_keeps_id dm cs : forall p p',
  Forall (fun c => callee c <> f_init) cs ->
  run dm cs p = Some p' ->
  s_defaultEventID p' = s_defaultEventID p.
Proof.
  induction cs as [|c cs IH]; intros p p' F R; cbn in R.
  - inversion R; reflexivity.
  - inversion F as [|? ? Hc Hcs]; subst.
    destruct (after_call (invoke dm c p)) as [p1|] eqn:E; [|discriminate].
    apply other_calls_keep_id in E; [|assumption].
    rewrite (IH _ _ Hcs R). apply E.
Qed.

Lemma postEvent_before_init dm L args p :
  s_defaultEventID p = Wx.wxID_ANY ->
  call (postEvent dm) L args p =
    Throws (RuntimeError (if (1 <=? List.length args)%nat && (List.length args <=? 2)%nat
                          then msg_uninit_postEvent else msg_count)) p.
Proof.
  intros U.
  destruct (1 <=? List.length args)%nat eqn:A; [destruct (List.length args <=? 2)%nat eqn:B|];
    cbn [andb].
  - apply Nat.leb_le in A, B. apply postEvent_uninit; [lia | assumption].
  - apply Nat.leb_gt in B. apply postEvent_count. lia.
  - apply Nat.leb_gt in A. apply postEvent_count. lia.
Qed.

Lemma uninit_call_is_inert dm c p :
  callee c <> f_init ->
  s_defaultEventID p = Wx.wxID_ANY ->
  after_call (invoke dm c p) = Some p.
Proof.
  intros N U. unfold invoke. destruct (callee c); [congruence| |]; cbn [bridge_funcs].
  - rewrite getPointer_uninit by assumption. reflexivity.
  - rewrite postEvent_before_init by assumption. reflexivity.
Qed.

Lemma run_before_init dm cs p :
  Forall (fun c => callee c <> f_init) cs ->
  s_defaultEventID p = Wx.wxID_ANY ->
  run dm cs p = Some p.
Proof.
  intros F U. induction F as [|c cs Hc Hcs IH]; cbn; [reflexivity|].
  rewrite uninit_call_is_inert by assumption. exact IH.
Qed.

Lemma init_total L args p :
  after_call (call init L args p) =
    Some match nth_error args 0 with
         | Some v =>
             match tointeger (lua_str2d L) v with
             | Some id => store_id (C.to_int id) p
             | None => p
             end
         | None => p
         end.
Proof.
  destruct args as [|v rest]; cbn [nth_error].
  - destruct (init_rejects L [] p I) as [msg E]. rewrite E. reflexivity.
  - destruct (tointeger (lua_str2d L) v) as [id|] eqn:T.
    + apply init_stores. exact T.
    + destruct (init_rejects L (v :: rest) p) as [msg E]; [exact T|].
      rewrite E. reflexivity.
Qed.

Lemma step_stays_initialized dm c p p' :
  resets c = false ->
  initialized p = true ->
  after_call (invoke dm c p) = Some p' ->
  initialized p' = true.
Proof.
  intros N I R. destruct (callee c) eqn:F.
  - unfold invoke in R. rewrite F in R. cbn [bridge_funcs] in R.
    rewrite init_total in R. injection R as <-.
    unfold resets in N. rewrite F in N.
    destruct (arguments c) as [|v rest]; cbn [nth_error] in *; [assumption|].
    destruct (tointeger (lua_str2d (lane c)) v) as [id|]; [|assumption].
    unfold initialized, store_id. cbn. rewrite N. reflexivity.
  - apply other_calls_keep_id in R; [|congruence].
    unfold initialized in *. rewrite (proj1 R). exact I.
  - apply other_calls_keep_id in R; [|congruence].
    unfold initialized in *. rewrite (proj1 R). exact I.
Qed.

Lemma run_stays_initialized dm cs : forall p p',
  Forall (fun c => resets c = false) cs ->
  initialized p = true ->
  run dm cs p = Some p' ->
  initialized p' = true.
Proof.
  induction cs as [|c cs IH]; intros p p' F I R; cbn in R.
  - inversion R; subst; assumption.
  - inversion F as [|? ? Hc Hcs]; subst.
    destruct (after_call (invoke dm c p)) as [p1|] eqn:E; [|discriminate].
    eapply IH; [exact Hcs | | exact R].
    eapply step_stays_initialized; eassumption.
Qed.

Lemma reset_uninitializes dm c p :
  resets c = true ->
  exists p', after_call (invoke dm c p) = Some p' /\ initialized p' = false.
Proof.
  intros N. unfold resets in N.
  destruct (callee c) eqn:F; try discriminate N.
  destruct (nth_error (arguments c) 0) as [v|] eqn:A; try discriminate N.
  destruct (tointeger (lua_str2d (lane c)) v) as [id|] eqn:T; try discriminate N.
  unfold invoke. rewrite F. cbn [bridge_funcs]. rewrite init_total, A, T.
  eexists. split; [reflexivity|].
  unfold initialized, store_id. cbn. rewrite N. reflexivity.
Qed.

(** ** Tables, conversions *)

Lemma getstr_filter k t :
  k = "s" \/ k = "i" \/ k = "l" ->
  getstr k (filter recognized t) = getstr k t.
Proof.
  intros K. induction t as [|[k' v] t IH]; [reflexivity|].
  cbn [filter getstr]. destruct (recognized (k', v)) eqn:R; cbn [getstr].
  - rewrite IH. reflexivity.
  - destruct (is_key k k') eqn:E; [|exact IH].
    exfalso. unfold recognized in R. cbn [fst] in R.
    destruct K as [-> | [-> | ->]]; rewrite E in R;
      [|rewrite orb_true_r in R ..]; discriminate R.
Qed.

Lemma built_filter dm L t id : built dm L (filter recognized t) id = built dm L t id.
Proof. unfold built. rewrite !getstr_filter by auto. reflexivity. Qed.

Lemma to_int_in_range b : - 2 ^ 31 <= b < 2 ^ 31 -> C.to_int b = b.
Proof.
  intros R. unfold C.to_int, C.wrap, C.int_bits.
  change (2 ^ (32 - 1)) with (2 ^ 31). change (2 ^ 32) with (2 * 2 ^ 31).
  rewrite Z.mod_small by lia. lia.
Qed.

Lemma initialized_store id p : initialized (store_id id p) = negb (id =? Wx.wxID_ANY).
Proof. reflexivity. Qed.

Lemma not_a_number_is_no_number str2d :
  tonumber str2d (LString "not-a-number") = None.
Proof. reflexivity. Qed.

(** ** The model at work *)

Example numerals :
  l_str2int "10" = Some 10
  /\ l_str2int " -0x10 " = Some (-16)
  /\ l_str2int "9223372036854775807" = Some LUA_MAXINTEGER
  /\ l_str2int "9223372036854775808" = None
  /\ l_str2int "0x" = None
  /\ l_str2int "12abc" = None.
Proof. repeat split. Qed.

Example narrowing :
  C.to_int 7 = 7 /\ C.to_int 4294967295 = -1 /\ C.to_int 2147483648 = -2147483648.
Proof. repeat split. Qed.

(** The scenario of the specification: the GUI thread configures the
    bridge with the id 7, a worker extracts the address 0xABCD from its
    wrapper and posts a finished job to it. *)
Example scenario :
  run C.LLP64 [configure 7] unconfigured = Some configured
  /\ call getPointer plain_lane [LUserdata 4096] configured
     = Returns [LLightUserdata 43981] configured
  /\ call (postEvent C.LLP64) plain_lane
       [LLightUserdata 43981; LTable scenario_payload] configured
     = Returns []
         (enqueue 43981
            {| Wx.m_eventType := 7; Wx.m_id := Wx.wxID_ANY;
               Wx.m_cmdString := Wx.FromUTF8 "done";
               Wx.m_commandInt := 1; Wx.m_extraLong := 1000 |} configured).
Proof. repeat split. Qed.

(** A number under [s] is turned into a string, a numeral under [l] into
    a number, and a string that is no numeral under [i] is skipped. *)
Example coercions :
  call (postEvent C.LLP64) plain_lane
    [LLightUserdata 43981;
     LTable [(LString "s", LInteger 12); (LString "i", LString "not-a-number");
             (LString "l", LString "0x10")]] configured
  = Returns []
      (enqueue 43981
         {| Wx.m_eventType := 7; Wx.m_id := Wx.wxID_ANY;
            Wx.m_cmdString := Wx.FromUTF8 "12";
            Wx.m_commandInt := 0; Wx.m_extraLong := 16 |} configured).
Proof. reflexivity. Qed.

(** ** The claims *)

(** C1 (as amended).  In the Initialized state, [getPointer] returns no
    value (nil) and raises nothing when its argument is missing, is no
    userdata of either kind, or is the null light userdata.  A wrapper
    whose first machine word is null is not such a case: its null address
    is returned, as a light userdata. *)
Theorem getPointer_soft_miss L p :
  initialized p = true ->
  (forall args,
     match nth_error args 0 with
     | Some v => is_userdata v = false \/ v = LLightUserdata 0
     | None => True
     end ->
     call getPointer L args p = Returns [] p)
  /\ (forall block rest,
        peek (memory p) (Z.pos block) = Some 0 ->
        call getPointer L (LUserdata block :: rest) p = Returns [LLightUserdata 0] p).
Proof.
  intros I. split.
  - intros args H. destruct args as [|v rest].
    + apply getPointer_other; [assumption | exact H].
    + cbn [nth_error] in H. destruct H as [H| ->].
      * apply getPointer_other; [assumption | exact H].
      * rewrite getPointer_light by assumption. reflexivity.
  - intros block rest W. rewrite getPointer_wrapper by assumption.
    rewrite W. reflexivity.
Qed.

Lemma getPointer_soft_miss_witness :
  initialized configured = true
  /\ call getPointer plain_lane [LString "frame"] configured = Returns [] configured
  /\ call getPointer plain_lane [LUserdata 8192] configured
     = Returns [LLightUserdata 0] configured.
Proof.
  split; [reflexivity|].
  destruct (getPointer_soft_miss plain_lane configured eq_refl) as [A B].
  split.
  - apply (A [LString "frame"]). left. reflexivity.
  - apply (B 8192%positive []). reflexivity.
Defined.

(** C1, as stated, fails: the wrapper at 8192 holds a null first word, and
    [getPointer] returns that null address instead of nil. *)
Lemma getPointer_returns_null_word :
  initialized configured = true
  /\ peek (memory configured) 8192 = Some 0
  /\ call getPointer plain_lane [LUserdata 8192] configured
     = Returns [LLightUserdata 0] configured
  /\ call getPointer plain_lane [LUserdata 8192] configured <> Returns [] configured.
Proof. repeat split. discriminate. Qed.

(** C2 (as amended).  As long as no [init] call was made, the process is
    where it started; there every [getPointer] call, and every
    [postEvent] call with one or two arguments, raises its
    uninitialised-use error, and a [postEvent] call with another number
    of arguments raises the argument-count error.  Once [init] was called
    with an id that does not convert to the sentinel [wxID_ANY], and
    through any later calls other than [init], [getPointer] on a wrapper
    with a readable first word and [postEvent] on a plain address, with
    or without a data table, return without error. *)
Theorem init_gates_use dm mem pre :
  Forall (fun c => callee c <> f_init) pre ->
  run dm pre (process_start mem) = Some (process_start mem)
  /\ (forall L args,
        call getPointer L args (process_start mem)
        = Throws (RuntimeError msg_uninit_getPointer) (process_start mem))
  /\ (forall L args, (1 <= List.length args <= 2)%nat ->
        call (postEvent dm) L args (process_start mem)
        = Throws (RuntimeError msg_uninit_postEvent) (process_start mem))
  /\ (forall L args, (List.length args < 1 \/ 2 < List.length args)%nat ->
        call (postEvent dm) L args (process_start mem)
        = Throws (RuntimeError msg_count) (process_start mem))
  /\ (forall p0 Li v rest id,
        tointeger (lua_str2d Li) v = Some id ->
        C.to_int id <> Wx.wxID_ANY ->
        exists p,
          after_call (call init Li (v :: rest) p0) = Some p
          /\ initialized p = true
          /\ forall mid p',
               Forall (fun c => callee c <> f_init) mid ->
               run dm mid p = Some p' ->
               (forall L block X more,
                  peek (memory p') (Z.pos block) = Some X ->
                  call getPointer L (LUserdata block :: more) p'
                  = Returns [LLightUserdata X] p')
               /\ (forall L q, exists p'',
                     call (postEvent dm) L [LLightUserdata q] p' = Returns [] p'')
               /\ (forall L q t, exists p'',
                     call (postEvent dm) L [LLightUserdata q; LTable t] p'
                     = Returns [] p'')).
Proof.
  intros F. split; [|split; [|split; [|split]]].
  - apply run_before_init; [assumption | reflexivity].
  - intros L args. apply getPointer_uninit. reflexivity.
  - intros L args H. apply postEvent_uninit; [assumption | reflexivity].
  - intros L args H. apply postEvent_count. assumption.
  - intros p0 Li v rest id T N.
    exists (store_id (C.to_int id) p0).
    assert (I : initialized (store_id (C.to_int id) p0) = true).
    { rewrite initialized_store. apply negb_true_iff, Z.eqb_neq. exact N. }
    split; [apply init_stores; exact T|]. split; [exact I|].
    intros mid p' Fm R.
    assert (I' : initialized p' = true).
    { unfold initialized in *. rewrite (run_keeps_id dm mid _ _ Fm R). exact I. }
    split; [|split].
    + intros L block X more W. rewrite getPointer_wrapper by assumption.
      rewrite W. reflexivity.
    + intros L q. eexists. apply postEvent_bare. assumption.
    + intros L q t. eexists. apply postEvent_table. assumption.
Qed.

Lemma init_gates_use_witness :
  Forall (fun c => callee c <> f_init) [probe]
  /\ call getPointer plain_lane [LUserdata 4096] unconfigured
     = Throws (RuntimeError msg_uninit_getPointer) unconfigured
  /\ call (postEvent C.LLP64) plain_lane [LLightUserdata 43981] unconfigured
     = Throws (RuntimeError msg_uninit_postEvent) unconfigured
  /\ tointeger (lua_str2d plain_lane) (LInteger 7) = Some 7
  /\ C.to_int 7 <> Wx.wxID_ANY
  /\ after_call (call init plain_lane [LInteger 7] unconfigured) = Some configured
  /\ call getPointer plain_lane [LUserdata 4096] configured
     = Returns [LLightUserdata 43981] configured
  /\ exists p'',
       call (postEvent C.LLP64) plain_lane [LLightUserdata 43981] configured
       = Returns [] p''.
Proof.
  assert (F : Forall (fun c => callee c <> f_init) [probe])
    by (constructor; [discriminate | constructor]).
  assert (N : C.to_int 7 <> Wx.wxID_ANY) by discriminate.
  split; [exact F|].
  destruct (init_gates_use C.LLP64 example_memory [probe] F) as (_ & G & P & _ & A).
  split; [apply G|]. split; [apply P; cbn; lia|].
  split; [reflexivity|]. split; [exact N|]. split; [reflexivity|].
  destruct (A unconfigured plain_lane (LInteger 7) [] 7 eq_refl N) as (p & E & _ & K).
  change (Some configured = Some p) in E. injection E as <-.
  destruct (K [] configured (Forall_nil _) eq_refl) as (K1 & K2 & _).
  split.
  - apply (K1 plain_lane 4096%positive 43981 []). reflexivity.
  - apply (K2 plain_lane 43981).
Defined.

(** C2, as stated, fails twice: before any [init] call, [postEvent]
    without arguments raises the argument-count error, not the
    uninitialised-use error; and after [init(-1)] the module still
    refuses a valid [getPointer] call. *)
Lemma count_check_precedes_gate :
  call (postEvent C.LLP64) plain_lane [] unconfigured
  = Throws (RuntimeError msg_count) unconfigured
  /\ call (postEvent C.LLP64) plain_lane [] unconfigured
     <> Throws (RuntimeError msg_uninit_postEvent) unconfigured
  /\ run C.LLP64 [configure (-1)] unconfigured = Some unconfigured
  /\ call getPointer plain_lane [LUserdata 4096] unconfigured
     = Throws (RuntimeError msg_uninit_getPointer) unconfigured.
Proof. repeat split. discriminate. Qed.

(** C3 (as amended).  From the Initialized state, no sequence of calls
    leads back to Uninitialized unless it contains an [init] call whose
    id converts to the sentinel [wxID_ANY]: [getPointer], [postEvent] and
    a failing [init] never touch the stored id.  An [init] call that
    stores the sentinel does put the module back in the Uninitialized
    state. *)
Theorem initialized_one_way dm p :
  initialized p = true ->
  (forall cs1 cs2 p',
     Forall (fun c => resets c = false) (cs1 ++ cs2) ->
     run dm cs1 p = Some p' ->
     initialized p' = true)
  /\ (forall c, resets c = true ->
        exists p', after_call (invoke dm c p) = Some p' /\ initialized p' = false).
Proof.
  intros I. split.
  - intros cs1 cs2 p' F R. apply Forall_app in F.
    exact (run_stays_initialized dm cs1 p p' (proj1 F) I R).
  - intros c N. apply reset_uninitializes. exact N.
Qed.

Lemma initialized_one_way_witness :
  initialized configured = true
  /\ option_map initialized
       (run C.LLP64
          [ configure 9;
            {| callee := f_postEvent; lane := plain_lane;
               arguments := [LLightUserdata 43981] |} ] configured) = Some true.
Proof.
  split; [reflexivity|].
  destruct (run C.LLP64 _ configured) as [p'|] eqn:R; [|discriminate R].
  cbn [option_map]. f_equal.
  refine (proj1 (initialized_one_way C.LLP64 configured eq_refl) _ [] p' _ R).
  repeat constructor.
Defined.

(** C3, as stated, fails: [init(7)] makes the module Initialized and a
    following [init(-1)] makes it Uninitialized again. *)
Lemma configure_sentinel_uninitializes :
  option_map initialized (run C.LLP64 [configure 7] unconfigured) = Some true
  /\ option_map initialized (run C.LLP64 [configure 7; configure (-1)] unconfigured)
     = Some false.
Proof. split; reflexivity. Qed.

(** The address round trip, and the arguments on which nothing is found.
    In the Initialized state, [getPointer] on a wrapper whose first
    machine word holds the address [X] returns exactly [X], as a light
    userdata; on a missing argument, on an argument that is no userdata
    of either kind and on the null light userdata it returns no value
    (nil). *)
Lemma getPointer_round_trip L p :
  initialized p = true ->
  (forall block X rest,
     peek (memory p) (Z.pos block) = Some X ->
     call getPointer L (LUserdata block :: rest) p = Returns [LLightUserdata X] p)
  /\ (forall args,
        match nth_error args 0 with
        | Some v => is_userdata v = false \/ v = LLightUserdata 0
        | None => True
        end ->
        call getPointer L args p = Returns [] p).
Proof.
  intros I. split.
  - intros block X rest W. rewrite getPointer_wrapper by assumption.
    rewrite W. reflexivity.
  - intros [|v rest] H.
    + apply getPointer_other; [assumption | exact H].
    + cbn [nth_error] in H. destruct H as [H| ->].
      * apply getPointer_other; [assumption | exact H].
      * rewrite getPointer_light by assumption. reflexivity.
Qed.

(** C4.  The code at the input on which it departs from the claim: the
    light userdata 43981 is no wrapper, yet in the Initialized state
    [getPointer] takes it for a userdata block, reads the word stored at
    that address and returns it, where the claim (and the "nil if the
    extraction fails" of the function's own documentation) has nil. *)
Theorem getPointer_reads_through_plain_address :
  initialized configured = true
  /\ is_wrapper (LLightUserdata 43981) = false
  /\ call getPointer plain_lane [LLightUserdata 43981] configured
     = Returns [LLightUserdata 28672] configured
  /\ call getPointer plain_lane [LLightUserdata 43981] configured
     <> Returns [] configured.
Proof. repeat split. discriminate. Qed.

(** C5.  In the Initialized state, [postEvent] on the null address, with
    or without a data table, returns no value, raises nothing and leaves
    the process as it was: no event is enqueued. *)
Theorem postEvent_null_target dm L p :
  initialized p = true ->
  call (postEvent dm) L [LLightUserdata 0] p = Returns [] p
  /\ forall t, call (postEvent dm) L [LLightUserdata 0; LTable t] p = Returns [] p.
Proof.
  intros I. split.
  - rewrite postEvent_bare by assumption. reflexivity.
  - intros t. rewrite postEvent_table by assumption. reflexivity.
Qed.

Lemma postEvent_null_target_witness :
  initialized configured = true
  /\ call (postEvent C.LLP64) plain_lane
       [LLightUserdata 0; LTable [(LString "s", LString "done")]] configured
     = Returns [] configured.
Proof.
  split; [reflexivity|].
  apply (proj2 (postEvent_null_target C.LLP64 plain_lane configured eq_refl)).
Defined.

(** C6.  In the Initialized state and for a non-null target: a data table
    with [s = "hello"], [l = 42] and no [i] enqueues an event whose string
    is "hello", whose long is 42 and whose integer is the default 0; a
    table with [i = "not-a-number"] enqueues an event whose integer is
    the default, and raises nothing; and the entries of a table under
    keys other than [s], [i] and [l] make no difference. *)
Theorem postEvent_field_selectivity dm L q p :
  initialized p = true ->
  q <> 0 ->
  (forall t,
     getstr "s" t = LString "hello" ->
     getstr "i" t = LNil ->
     getstr "l" t = LInteger 42 ->
     call (postEvent dm) L [LLightUserdata q; LTable t] p
     = Returns []
         (enqueue q
            {| Wx.m_eventType := s_defaultEventID p; Wx.m_id := Wx.wxID_ANY;
               Wx.m_cmdString := Wx.FromUTF8 "hello";
               Wx.m_commandInt := Wx.m_commandInt (Wx.new_wxThreadEvent 0 0);
               Wx.m_extraLong := 42 |} p))
  /\ (forall t,
        getstr "i" t = LString "not-a-number" ->
        exists ev,
          call (postEvent dm) L [LLightUserdata q; LTable t] p
          = Returns [] (enqueue q ev p)
          /\ Wx.m_commandInt ev = Wx.m_commandInt (Wx.new_wxThreadEvent 0 0))
  /\ (forall t,
        call (postEvent dm) L [LLightUserdata q; LTable t] p
        = call (postEvent dm) L [LLightUserdata q; LTable (filter recognized t)] p).
Proof.
  intros I Q. apply Z.eqb_neq in Q. repeat split.
  - intros t Hs Hi Hl. rewrite postEvent_table by assumption. rewrite Q.
    unfold built. rewrite Hs, Hi, Hl. destruct dm; reflexivity.
  - intros t Hi. eexists. split.
    + rewrite postEvent_table by assumption. rewrite Q. reflexivity.
    + unfold built. rewrite Hi.
      unfold payload_i. rewrite not_a_number_is_no_number.
      rewrite (proj2 (payload_l_kind _ _ _ _)), (proj2 (payload_s_kind _ _ _)).
      reflexivity.
  - intros t. rewrite !postEvent_table by assumption. rewrite built_filter.
    reflexivity.
Qed.

Lemma postEvent_field_selectivity_witness :
  initialized configured = true
  /\ 43981 <> 0
  /\ call (postEvent C.LLP64) plain_lane
       [LLightUserdata 43981;
        LTable [(LString "s", LString "hello"); (LString "l", LInteger 42)]]
       configured
     = Returns []
         (enqueue 43981
            {| Wx.m_eventType := 7; Wx.m_id := -1;
               Wx.m_cmdString := Wx.FromUTF8 "hello";
               Wx.m_commandInt := 0; Wx.m_extraLong := 42 |} configured).
Proof.
  split; [reflexivity|]. split; [discriminate|].
  refine (proj1 (postEvent_field_selectivity C.LLP64 plain_lane 43981 configured
                   eq_refl _)
            [(LString "s", LString "hello"); (LString "l", LInteger 42)]
            eq_refl eq_refl eq_refl).
  discriminate.
Defined.

(** C7 (as amended).  A [postEvent] call with no argument or with more
    than two raises the argument-count error, whatever the state.  In the
    Initialized state, a call with one or two arguments whose first is no
    light userdata raises the type error of argument 1, and a call with a
    light userdata and a second argument that is no table raises the type
    error of argument 2.  Each error leaves the process as it was, and
    the four messages of [postEvent] differ from one another. *)
Theorem postEvent_validation dm L p :
  (forall args, (List.length args < 1 \/ 2 < List.length args)%nat ->
     call (postEvent dm) L args p = Throws (RuntimeError msg_count) p)
  /\ (initialized p = true ->
      (forall v rest, (List.length rest <= 1)%nat -> is_light v = false ->
         call (postEvent dm) L (v :: rest) p = Throws (RuntimeError msg_arg1) p)
      /\ (forall q v, is_table v = false ->
            call (postEvent dm) L [LLightUserdata q; v] p
            = Throws (RuntimeError msg_arg2) p))
  /\ (msg_count <> msg_uninit_postEvent /\ msg_count <> msg_arg1
      /\ msg_count <> msg_arg2 /\ msg_uninit_postEvent <> msg_arg1
      /\ msg_uninit_postEvent <> msg_arg2 /\ msg_arg1 <> msg_arg2).
Proof.
  split; [|split].
  - intros args H. apply postEvent_count. exact H.
  - intros I. split.
    + intros v rest H N. apply postEvent_arg1; assumption.
    + intros q v N. apply postEvent_arg2; assumption.
  - repeat split; discriminate.
Qed.

Lemma postEvent_validation_witness :
  initialized configured = true
  /\ call (postEvent C.LLP64) plain_lane [] configured
     = Throws (RuntimeError msg_count) configured
  /\ call (postEvent C.LLP64) plain_lane [LUserdata 4096] configured
     = Throws (RuntimeError msg_arg1) configured
  /\ call (postEvent C.LLP64) plain_lane [LLightUserdata 43981; LInteger 3] configured
     = Throws (RuntimeError msg_arg2) configured.
Proof.
  split; [reflexivity|].
  destruct (postEvent_validation C.LLP64 plain_lane configured) as (A & B & _).
  destruct (B eq_refl) as [B1 B2].
  split; [|split].
  - apply (A []). left. cbn. lia.
  - apply (B1 (LUserdata 4096) []); [cbn; lia | reflexivity].
  - apply (B2 43981 (LInteger 3)). reflexivity.
Defined.

(** C7, as stated, fails: before [init], a call whose only argument is no
    light userdata raises the uninitialised-use error, not a type
    error. *)
Lemma postEvent_gate_precedes_types :
  is_light (LString "frame") = false
  /\ call (postEvent C.LLP64) plain_lane [LString "frame"] unconfigured
     = Throws (RuntimeError msg_uninit_postEvent) unconfigured
  /\ call (postEvent C.LLP64) plain_lane [LString "frame"] unconfigured
     <> Throws (RuntimeError msg_arg1) unconfigured.
Proof. repeat split. discriminate. Qed.

(** C8.  Take an [init] call with an integer id, any later calls other
    than [init], and then a [postEvent] call on a non-null target.  If
    the call returns, it has appended exactly one event to the pending
    events, addressed to the target, and the event's type is the id the
    [init] call stored (the id as a [wxEventType]); and the call does
    return, on the target alone or with any data table, unless that id is
    the sentinel. *)
Theorem postEvent_enqueues_one dm Li v0 rest0 id p0 p1 mid p L q :
  tointeger (lua_str2d Li) v0 = Some id ->
  after_call (call init Li (v0 :: rest0) p0) = Some p1 ->
  Forall (fun c => callee c <> f_init) mid ->
  run dm mid p1 = Some p ->
  q <> 0 ->
  s_defaultEventID p = C.to_int id
  /\ (forall more results p',
        call (postEvent dm) L (LLightUserdata q :: more) p = Returns results p' ->
        results = []
        /\ exists ev,
             pending p' = pending p ++ [(q, ev)]
             /\ Wx.m_eventType ev = C.to_int id
             /\ s_defaultEventID p' = s_defaultEventID p)
  /\ (C.to_int id <> Wx.wxID_ANY ->
      (exists p', call (postEvent dm) L [LLightUserdata q] p = Returns [] p')
      /\ (forall t, exists p',
            call (postEvent dm) L [LLightUserdata q; LTable t] p = Returns [] p')).
Proof.
  intros T E F R Q.
  rewrite (init_stores Li v0 rest0 p0 id T) in E. injection E as <-.
  assert (S : s_defaultEventID p = C.to_int id)
    by (rewrite (run_keeps_id dm mid _ _ F R); reflexivity).
  split; [exact S|]. split.
  - intros more results p' P.
    pose proof (postEvent_total dm L (LLightUserdata q :: more) p) as W.
    rewrite P in W. inversion W as [msg|rest A|q' rest ev A Q' K]; subst.
    + injection A as A. congruence.
    + injection A as <-. split; [reflexivity|].
      exists ev. cbn [pending enqueue s_defaultEventID]. rewrite <- S. auto.
  - intros N.
    assert (I : initialized p = true).
    { unfold initialized. rewrite S. apply negb_true_iff, Z.eqb_neq. exact N. }
    split.
    + eexists. apply postEvent_bare. exact I.
    + intros t. eexists. apply postEvent_table. exact I.
Qed.

Lemma postEvent_enqueues_one_witness :
  run C.LLP64 [configure 7; probe] unconfigured = Some configured
  /\ 43981 <> 0
  /\ exists p',
       call (postEvent C.LLP64) plain_lane [LLightUserdata 43981; LTable scenario_payload]
         configured = Returns [] p'
       /\ exists ev,
            pending p' = pending configured ++ [(43981, ev)]
            /\ Wx.m_eventType ev = C.to_int 7.
Proof.
  split; [reflexivity|]. split; [discriminate|].
  eexists. split; [reflexivity|].
  assert (F : Forall (fun c => callee c <> f_init) [probe])
    by (constructor; [discriminate | constructor]).
  assert (Q : 43981 <> 0) by discriminate.
  destruct (postEvent_enqueues_one C.LLP64 plain_lane (LInteger 7) [] 7
              unconfigured configured [probe] configured plain_lane 43981
              eq_refl eq_refl F eq_refl Q)
    as (_ & P & _).
  destruct (P [LTable scenario_payload] [] _ eq_refl) as (_ & ev & A & B & _).
  exists ev. split; [exact A | exact B].
Defined.

(** C9 (as amended).  For all integers [a] and [b], [init(a)] followed by
    [init(b)] leaves the stored id equal to [b] converted to the 32-bit
    [wxEventType], which is [b] itself when [b] is in the range of [int],
    whatever [a] is; and the process is the one [init(b)] alone leads
    to. *)
Theorem init_overwrites La Lb a b resta restb p :
  exists p1 p2,
    after_call (call init La (LInteger a :: resta) p) = Some p1
    /\ after_call (call init Lb (LInteger b :: restb) p1) = Some p2
    /\ s_defaultEventID p2 = C.to_int b
    /\ (- 2 ^ 31 <= b < 2 ^ 31 -> s_defaultEventID p2 = b)
    /\ after_call (call init Lb (LInteger b :: restb) p) = Some p2.
Proof.
  exists (store_id (C.to_int a) p), (store_id (C.to_int b) p).
  split; [apply init_stores; reflexivity|].
  split; [apply (init_stores Lb (LInteger b) restb (store_id (C.to_int a) p) b eq_refl)|].
  split; [reflexivity|].
  split; [intros R; apply to_int_in_range; exact R|].
  apply init_stores. reflexivity.
Qed.

Lemma init_overwrites_witness :
  - 2 ^ 31 <= 7 < 2 ^ 31
  /\ exists p2,
       run C.LLP64 [configure 3; configure 7] unconfigured = Some p2
       /\ s_defaultEventID p2 = 7.
Proof.
  split; [split; [discriminate | reflexivity]|].
  destruct (init_overwrites plain_lane plain_lane 3 7 [] [] unconfigured)
    as (p1 & p2 & E1 & E2 & _ & S & _).
  exists p2. split.
  - cbn [run]. unfold invoke, configure. cbn [callee lane arguments bridge_funcs].
    rewrite E1, E2. reflexivity.
  - apply S. split; [discriminate | reflexivity].
Defined.

(** C9, as stated, fails: after [init(1)] and [init(4294967303)] the
    stored id is 7, not 4294967303. *)
Lemma init_truncates :
  option_map s_defaultEventID
    (run C.LLP64 [configure 1; configure 4294967303] unconfigured) = Some 7
  /\ option_map s_defaultEventID
       (run C.LLP64 [configure 1; configure 4294967303] unconfigured)
     <> Some 4294967303.
Proof. split; [reflexivity | discriminate]. Qed.

(** C10.  An [init] call without an argument, or whose argument is not
    convertible to an integer, raises an argument error for argument 1
    and leaves the process, and so the stored event id, as it was. *)
Theorem init_rejects_non_integer L args p :
  match nth_error args 0 with
  | Some v => tointeger (lua_str2d L) v = None
  | None => True
  end ->
  exists msg,
    call init L args p = Throws (ArgError 1 msg) p
    /\ after_call (call init L args p) = Some p.
Proof.
  intros H. destruct (init_rejects L args p H) as [msg E].
  exists msg. rewrite E. split; reflexivity.
Qed.

Lemma init_rejects_non_integer_witness :
  tointeger (lua_str2d plain_lane) (LString "not-a-number") = None
  /\ exists msg,
       call init plain_lane [LString "not-a-number"] configured
       = Throws (ArgError 1 msg) configured.
Proof.
  split; [reflexivity|].
  destruct (init_rejects_non_integer plain_lane [LString "not-a-number"] configured eq_refl)
    as (msg & E & _).
  exists msg. exact E.
Defined.

(** ** Further properties of the code *)

(** *** The module table: [luaopen_wxLanesBridge] and the result of [init] *)

Lemma index_under L s x y : stack L = s ++ [x; y] -> index2value L (-2) = Some x.
Proof.
  intros E. unfold index2value. replace (-2 =? LUA_REGISTRYINDEX) with false by reflexivity.
  rewrite (slot_under L s x y E), E. apply nth_error_middle.
Qed.

Lemma index_top2 L s x y : stack L = s ++ [x; y] -> index2value L (-1) = Some y.
Proof.
  intros E. apply (index_top L (s ++ [x]) y). rewrite E, <- app_assoc. reflexivity.
Qed.

Lemma pop_push2 (s : list value) x y :
  firstn (List.length (s ++ [x; y]) - Z.to_nat 1) (s ++ [x; y]) = s ++ [x].
Proof.
  replace (s ++ [x; y]) with ((s ++ [x]) ++ [y]) by (rewrite <- app_assoc; reflexivity).
  apply pop_push.
Qed.

Lemma with_stack_again L a b : with_stack (with_stack L a) b = with_stack L b.
Proof. reflexivity. Qed.

(** [lua_setfield(L, -2, k)] on a frame that ends with a table and a
    value. *)
Lemma setfield_under L s t v k p :
  lua_setfield (-2) k (with_stack L (s ++ [LTable t; v])) p
  = Ok tt (with_stack L (s ++ [LTable (setstr k v t)])) p.
Proof.
  unfold lua_setfield.
  erewrite index_top2 by reflexivity.
  replace (-2 =? LUA_REGISTRYINDEX) with false by reflexivity.
  erewrite index_under, slot_under by reflexivity.
  unfold lua_pop. frame. rewrite set_nth_middle, pop_push2. reflexivity.
Qed.

Lemma setfuncs_eq l : forall L s t p,
  luaL_setfuncs l (with_stack L (s ++ [LTable t])) p
  = Ok tt (with_stack L
             (s ++ [LTable (fold_left
                              (fun acc nf => setstr (fst nf) (LFunction (cfunction_name (snd nf))) acc)
                              l t)])) p.
Proof.
  induction l as [|[name func] l IH]; intros L s t p; [reflexivity|].
  cbn [luaL_setfuncs fold_left fst snd]. unfold bind at 1.
  unfold lua_pushcfunction, lua_push. cbn [stack with_stack].
  rewrite <- app_assoc. cbn [app]. unfold bind at 1.
  rewrite with_stack_again, setfield_under. apply IH.
Qed.

Lemma luaopen_eq L args p :
  call luaopen_wxLanesBridge L args p = Returns [LTable module_table] p.
Proof.
  unfold call, luaopen_wxLanesBridge, luaL_newlib, lua_createtable.
  unfold bind at 1. unfold bind at 1. unfold lua_push at 1.
  cbn [stack with_stack]. rewrite with_stack_again, setfuncs_eq. cbn [fold_left bridge_reg fst snd setstr cfunction_name].
  unfold bind at 1. unfold lua_pushliteral, lua_push.
  cbn [stack with_stack]. rewrite with_stack_again.
  rewrite <- app_assoc. cbn [app]. unfold bind at 1.
  rewrite setfield_under. unfold ret. cbn [stack with_stack].
  change (Z.to_nat 1) with 1%nat. rewrite lastn_push. reflexivity.
Qed.

(** X1.  Whatever the arguments and the state, [luaopen_wxLanesBridge]
    returns one value, a table in which [init], [getPointer] and
    [postEvent] name the three functions and [_VERSION] the version
    string, and in which no other string is a key; it leaves the
    process, and so a stored event id, as it was. *)
Theorem luaopen_builds_module L args p :
  exists t,
    call luaopen_wxLanesBridge L args p = Returns [LTable t] p
    /\ (forall name f, In (name, f) bridge_reg ->
          getstr name t = LFunction (cfunction_name f))
    /\ getstr "_VERSION" t = LString "wxLanesBridge 1.0"
    /\ (forall k, k <> "init" -> k <> "getPointer" -> k <> "postEvent" ->
          k <> "_VERSION" -> getstr k t = LNil).
Proof.
  exists module_table. split; [apply luaopen_eq|]. split; [|split].
  - intros name f H. cbn in H.
    destruct H as [H|[H|[H|[]]]]; injection H as <- <-; reflexivity.
  - reflexivity.
  - intros k A B C0 D. unfold module_table. cbn [getstr is_key].
    repeat match goal with
           | |- context [String.eqb ?a k] =>
               destruct (String.eqb_spec a k); [congruence|]
           end.
    reflexivity.
Qed.

(** The fetch of the module table, outcome by outcome. *)
Lemma fetch_module_eq L p :
  fetch_module L p =
    match getstr "wxLanesBridge" (globals L) with
    | LNil =>
        match getstr "_LOADED" (registry L) with
        | LTable t => Ok 1 (with_stack L (stack L ++ [getstr "wxLanesBridge" t])) p
        | v => Raise (IndexError (type_of v)) p
        end
    | g => Ok 1 (with_stack L (stack L ++ [g])) p
    end.
Proof.
  unfold fetch_module. api.
  erewrite index_top by reflexivity.
  destruct (getstr "wxLanesBridge" (globals L)) eqn:G; cbn [type_of type_tag_eqb];
    try reflexivity.
  unfold lua_pop. frame. rewrite pop_push.
  unfold lua_getfield. rewrite index_registry. api. frame.
  erewrite index_top by reflexivity.
  destruct (getstr "_LOADED" (registry L)); try reflexivity.
  unfold lua_remove. rewrite <- app_assoc. cbn [app].
  erewrite slot_under by reflexivity. frame. rewrite remove_nth_middle.
  reflexivity.
Qed.

Lemma init_eq L v rest p id :
  tointeger (lua_str2d L) v = Some id ->
  call init L (v :: rest) p =
    match fetch_module (with_stack L (v :: rest)) (store_id (C.to_int id) p) with
    | Ok n L' p' => Returns (lastn (Z.to_nat n) (stack L')) p'
    | Raise e p' => Throws e p'
    | Undefined => Crashes
    end.
Proof.
  intros H. unfold call.
  change init with (id <- luaL_checkinteger 1 ;;
                    set_s_defaultEventID (C.to_int id) ;; fetch_module).
  api. erewrite index_first by reflexivity. frame. rewrite H. reflexivity.
Qed.

Lemma init_result L v rest p id :
  tointeger (lua_str2d L) v = Some id ->
  call init L (v :: rest) p =
    match getstr "wxLanesBridge" (globals L) with
    | LNil =>
        match getstr "_LOADED" (registry L) with
        | LTable t => Returns [getstr "wxLanesBridge" t] (store_id (C.to_int id) p)
        | w => Throws (IndexError (type_of w)) (store_id (C.to_int id) p)
        end
    | g => Returns [g] (store_id (C.to_int id) p)
    end.
Proof.
  intros H. rewrite (init_eq L v rest p id H), fetch_module_eq. frame.
  destruct (getstr "wxLanesBridge" (globals L));
    try (frame; change (Z.to_nat 1) with 1%nat; rewrite lastn_push; reflexivity).
  destruct (getstr "_LOADED" (registry L)); try reflexivity.
  frame. change (Z.to_nat 1) with 1%nat. rewrite lastn_push. reflexivity.
Qed.

(** X2.  An [init] call whose first argument converts to the integer
    [id] returns exactly one value and stores the id: the value is the
    global [wxLanesBridge] when that is not nil, and otherwise the entry
    [wxLanesBridge] of the registry's [_LOADED] table. *)
Theorem init_returns_module L v rest p id :
  tointeger (lua_str2d L) v = Some id ->
  (getstr "wxLanesBridge" (globals L) <> LNil ->
     call init L (v :: rest) p
     = Returns [getstr "wxLanesBridge" (globals L)] (store_id (C.to_int id) p))
  /\ (forall t,
        getstr "wxLanesBridge" (globals L) = LNil ->
        getstr "_LOADED" (registry L) = LTable t ->
        call init L (v :: rest) p
        = Returns [getstr "wxLanesBridge" t] (store_id (C.to_int id) p)).
Proof.
  intros H. rewrite (init_result L v rest p id H). split.
  - intros G. destruct (getstr "wxLanesBridge" (globals L)); congruence.
  - intros t G R. rewrite G, R. reflexivity.
Qed.

Lemma init_returns_module_witness :
  tointeger (lua_str2d plain_lane) (LString " 0x10 ") = Some 16
  /\ getstr "wxLanesBridge" (globals plain_lane) = LNil
  /\ call init plain_lane [LString " 0x10 "] unconfigured
     = Returns [LTable module_table] (store_id 16 unconfigured).
Proof.
  split; [reflexivity|]. split; [reflexivity|].
  exact (proj2 (init_returns_module plain_lane (LString " 0x10 ") [] unconfigured 16 eq_refl)
           [(LString "wxLanesBridge", LTable module_table)] eq_refl eq_refl).
Defined.

(** X3.  The store comes before the fetch: when there is no global
    [wxLanesBridge] and the registry holds no [_LOADED] table, an [init]
    call with a convertible id raises, for indexing a value that is no
    table, and the id is stored all the same, so that the module is
    initialised unless the id converts to the sentinel. *)
Theorem init_stores_before_fetch L v rest p id :
  tointeger (lua_str2d L) v = Some id ->
  getstr "wxLanesBridge" (globals L) = LNil ->
  is_table (getstr "_LOADED" (registry L)) = false ->
  call init L (v :: rest) p
  = Throws (IndexError (type_of (getstr "_LOADED" (registry L))))
      (store_id (C.to_int id) p)
  /\ (C.to_int id <> Wx.wxID_ANY -> initialized (store_id (C.to_int id) p) = true).
Proof.
  intros H G R. split.
  - rewrite (init_result L v rest p id H), G.
    destruct (getstr "_LOADED" (registry L)); try discriminate R; reflexivity.
  - intros N. rewrite initialized_store. apply negb_true_iff, Z.eqb_neq. exact N.
Qed.

Lemma init_stores_before_fetch_witness :
  call init (with_registry plain_lane []) [LInteger 7] unconfigured
  = Throws (IndexError LUA_TNIL) configured
  /\ initialized configured = true.
Proof.
  destruct (init_stores_before_fetch (with_registry plain_lane []) (LInteger 7) []
              unconfigured 7 eq_refl eq_refl eq_refl) as [A B].
  split; [exact A|]. apply B. discriminate.
Defined.

(** X4.  Opening and configuring compose: in a Lua state whose
    [_LOADED] table holds under [wxLanesBridge] what
    [luaopen_wxLanesBridge] returned, and that has no global of that
    name, [init] returns that very table, so that the functions can be
    reached from the result of [require("wxLanesBridge").init(id)]. *)
Theorem init_after_luaopen L Lo argso po m v rest p id :
  call luaopen_wxLanesBridge Lo argso po = Returns [m] po ->
  loaded_lane L m ->
  tointeger (lua_str2d L) v = Some id ->
  call init L (v :: rest) p = Returns [m] (store_id (C.to_int id) p)
  /\ exists t, m = LTable t
       /\ forall name f, In (name, f) bridge_reg ->
            getstr name t = LFunction (cfunction_name f).
Proof.
  intros O (G & t & R & E) H. split.
  - rewrite (init_result L v rest p id H), G, R, E. reflexivity.
  - rewrite luaopen_eq in O. injection O as <-.
    exists module_table. split; [reflexivity|].
    intros name f I0. cbn in I0.
    destruct I0 as [I0|[I0|[I0|[]]]]; injection I0 as <- <-; reflexivity.
Qed.

Lemma init_after_luaopen_witness :
  call luaopen_wxLanesBridge plain_lane [LString "wxLanesBridge"] unconfigured
  = Returns [LTable module_table] unconfigured
  /\ loaded_lane plain_lane (LTable module_table)
  /\ call init plain_lane [LInteger 7] unconfigured
     = Returns [LTable module_table] configured.
Proof.
  assert (W : loaded_lane plain_lane (LTable module_table)).
  { split; [reflexivity|]. eexists. split; reflexivity. }
  split; [reflexivity|]. split; [exact W|].
  exact (proj1 (init_after_luaopen plain_lane plain_lane [LString "wxLanesBridge"]
                  unconfigured (LTable module_table) (LInteger 7) [] unconfigured 7
                  eq_refl W eq_refl)).
Defined.

(** X5.  [init] and [getPointer] look at their first argument only:
    surplus arguments change neither the result nor the process. *)
Theorem surplus_arguments_are_ignored L v rest p :
  call getPointer L (v :: rest) p = call getPointer L [v] p
  /\ call init L (v :: rest) p = call init L [v] p.
Proof.
  split.
  - destruct (initialized p) eqn:I.
    + destruct v;
        try (rewrite !getPointer_other by (cbn; auto); reflexivity).
      * rewrite !getPointer_light by assumption. reflexivity.
      * rewrite !getPointer_wrapper by assumption. reflexivity.
    + unfold initialized in I. apply negb_false_iff, Z.eqb_eq in I.
      rewrite !getPointer_uninit by assumption. reflexivity.
  - destruct (tointeger (lua_str2d L) v) as [id|] eqn:T.
    + rewrite !(init_result L v _ p id T). reflexivity.
    + unfold call, init. api.
      erewrite !index_first by reflexivity. frame. rewrite T.
      repeat (erewrite index_first by reflexivity; cbv beta iota; frame).
      destruct (tonumber (lua_str2d L) v); cbv beta iota;
        repeat (erewrite index_first by reflexivity); reflexivity.
Qed.

(** *** What the functions do to the process *)

(** X6.  [getPointer] only reads: whatever its arguments and the state,
    a call that ends leaves the process exactly as it was, the one error
    it can raise is the uninitialised-use error, and what it returns is
    either nothing or one light userdata. *)
Theorem getPointer_only_reads L args p :
  call getPointer L args p = Crashes
  \/ call getPointer L args p = Throws (RuntimeError msg_uninit_getPointer) p
  \/ call getPointer L args p = Returns [] p
  \/ exists w, call getPointer L args p = Returns [LLightUserdata w] p.
Proof.
  destruct (initialized p) eqn:I.
  2: { right; left. apply getPointer_uninit.
       unfold initialized in I. apply negb_false_iff, Z.eqb_eq in I. exact I. }
  destruct args as [|v rest].
  - right; right; left. apply getPointer_other; cbn; auto.
  - destruct v;
      try (right; right; left; apply getPointer_other; cbn; auto; fail).
    + rewrite getPointer_light by assumption.
      destruct (p0 =? 0); [auto|].
      destruct (peek (memory p) p0); [right; right; right; eauto | auto].
    + rewrite getPointer_wrapper by assumption.
      destruct (peek (memory p) (Z.pos block)); [right; right; right; eauto | auto].
Qed.


(** *** Sequences of calls *)




(** X9.  Posts are queued in the order of the calls: once the module is
    initialised, a sequence of [postEvent] calls on non-null targets
    alone, from whatever Lua states, ends with one event of the stored
    type per call appended to the pending events, in call order. *)
Theorem posts_are_queued_in_order dm (lqs : list (lua_State * Z)) : forall p,
  initialized p = true ->
  Forall (fun lq => snd lq <> 0) lqs ->
  exists p',
    run dm (map (fun lq => ring (fst lq) (snd lq)) lqs) p = Some p'
    /\ pending p'
       = pending p
         ++ map (fun lq => (snd lq, Wx.new_wxThreadEvent (s_defaultEventID p) Wx.wxID_ANY))
              lqs
    /\ s_defaultEventID p' = s_defaultEventID p.
Proof.
  induction lqs as [|[L q] lqs IH]; intros p I F.
  - exists p. cbn. rewrite app_nil_r. auto.
  - inversion F as [|? ? Q F']; subst. cbn [snd] in Q.
    cbn [map run fst snd].
    change (invoke dm (ring L q) p) with (call (postEvent dm) L [LLightUserdata q] p).
    rewrite postEvent_bare by assumption.
    apply Z.eqb_neq in Q. rewrite Q. cbn [after_call].
    destruct (IH (enqueue q (Wx.new_wxThreadEvent (s_defaultEventID p) Wx.wxID_ANY) p))
      as (p' & R & P & S); [exact I | exact F' |].
    exists p'. split; [exact R|]. split; [|exact S].
    rewrite P. cbn [enqueue pending s_defaultEventID]. rewrite <- app_assoc. reflexivity.
Qed.

Lemma posts_are_queued_in_order_witness :
  initialized configured = true
  /\ Forall (fun lq : lua_State * Z => snd lq <> 0) [(plain_lane, 43981); (plain_lane, 4096)]
  /\ exists p',
       run C.LLP64 [ring plain_lane 43981; ring plain_lane 4096] configured = Some p'
       /\ map fst (pending p') = [43981; 4096].
Proof.
  assert (F : Forall (fun lq : lua_State * Z => snd lq <> 0)
                [(plain_lane, 43981); (plain_lane, 4096)])
    by (repeat constructor; discriminate).
  split; [reflexivity|]. split; [exact F|].
  destruct (posts_are_queued_in_order C.LLP64 _ configured eq_refl F) as (p' & R & P & _).
  exists p'. split; [exact R|]. rewrite P. reflexivity.
Defined.

(** X10.  The intended hand-over works, and a dead wrapper is harmless:
    in the Initialized state, what [getPointer] returns for a wrapper
    whose first word is [X] is accepted by [postEvent] as its target; the
    event is queued for [X] when [X] is not null, and when it is null
    the call does nothing and raises nothing. *)
Theorem getPointer_feeds_postEvent dm L L' block X p :
  initialized p = true ->
  peek (memory p) (Z.pos block) = Some X ->
  exists v,
    call getPointer L [LUserdata block] p = Returns [v] p
    /\ call (postEvent dm) L' [v] p
       = Returns []
           (if X =? 0 then p
            else enqueue X (Wx.new_wxThreadEvent (s_defaultEventID p) Wx.wxID_ANY) p).
Proof.
  intros I W. exists (LLightUserdata X). split.
  - rewrite getPointer_wrapper by assumption. rewrite W. reflexivity.
  - apply postEvent_bare. assumption.
Qed.

Lemma getPointer_feeds_postEvent_witness :
  initialized configured = true
  /\ peek (memory configured) 8192 = Some 0
  /\ exists v,
       call getPointer plain_lane [LUserdata 8192] configured = Returns [v] configured
       /\ call (postEvent C.LLP64) plain_lane [v] configured = Returns [] configured.
Proof.
  split; [reflexivity|]. split; [reflexivity|].
  exact (getPointer_feeds_postEvent C.LLP64 plain_lane plain_lane 8192%positive 0
           configured eq_refl eq_refl).
Defined.

(** *** The payload *)

Lemma wrap_fits bits n : 0 < bits -> fits bits (C.wrap bits n).
Proof.
  intros B. unfold fits, C.wrap.
  replace (2 ^ bits) with (2 * 2 ^ (bits - 1)).
  - assert (H : 0 < 2 ^ (bits - 1)) by (apply Z.pow_pos_nonneg; lia).
    pose proof (Z.mod_pos_bound (n + 2 ^ (bits - 1)) (2 * 2 ^ (bits - 1))). lia.
  - rewrite <- Z.pow_succ_r by lia. f_equal. lia.
Qed.

Lemma wrap_exact bits n : 0 < bits -> fits bits n -> C.wrap bits n = n.
Proof.
  intros B [A A']. unfold C.wrap.
  replace (2 ^ bits) with (2 * 2 ^ (bits - 1)).
  - rewrite Z.mod_small by lia. lia.
  - rewrite <- Z.pow_succ_r by lia. f_equal. lia.
Qed.

Lemma wrap_congruent bits n : 0 < bits -> (C.wrap bits n - n) mod 2 ^ bits = 0.
Proof.
  intros B. unfold C.wrap.
  assert (H : 0 < 2 ^ bits) by (apply Z.pow_pos_nonneg; lia).
  rewrite (Z.mod_eq (n + 2 ^ (bits - 1))) by lia.
  replace (n + 2 ^ (bits - 1) - 2 ^ bits * ((n + 2 ^ (bits - 1)) / 2 ^ bits)
           - 2 ^ (bits - 1) - n)
    with (- ((n + 2 ^ (bits - 1)) / 2 ^ bits) * 2 ^ bits) by ring.
  apply Z.mod_mul. lia.
Qed.

Lemma long_bits_pos dm : 0 < C.long_bits dm.
Proof. destruct dm; reflexivity. Qed.

Lemma tointeger_of_no_number str2d v : tonumber str2d v = None -> tointeger str2d v = None.
Proof. unfold tointeger. intros ->. reflexivity. Qed.

(** The three fields of the event [postEvent] builds. *)
Lemma built_fields dm L t id :
  Wx.m_cmdString (built dm L t id)
  = Wx.m_cmdString (payload_s L (getstr "s" t) (Wx.new_wxThreadEvent id Wx.wxID_ANY))
  /\ Wx.m_commandInt (built dm L t id) = C.to_int (integer_or_0 L (getstr "i" t))
  /\ Wx.m_extraLong (built dm L t id) = C.to_long dm (integer_or_0 L (getstr "l" t)).
Proof.
  unfold built, payload_l, payload_i, integer_or_0. repeat split.
  - destruct (tonumber (lua_str2d L) (getstr "l" t));
      destruct (tonumber (lua_str2d L) (getstr "i" t)); reflexivity.
  - destruct (tonumber (lua_str2d L) (getstr "l" t));
      destruct (tonumber (lua_str2d L) (getstr "i" t)) eqn:E; cbn [Wx.m_commandInt Wx.SetExtraLong Wx.SetInt];
      try reflexivity;
      rewrite (tointeger_of_no_number _ _ E), (proj2 (payload_s_kind _ _ _)); reflexivity.
  - destruct (tonumber (lua_str2d L) (getstr "l" t)) eqn:E; cbn [Wx.m_extraLong Wx.SetExtraLong];
      [reflexivity|].
    rewrite (tointeger_of_no_number _ _ E).
    destruct (tonumber (lua_str2d L) (getstr "i" t)); cbn [Wx.m_extraLong Wx.SetInt];
      destruct (getstr "s" t); cbn; destruct dm; reflexivity.
Qed.

Lemma posted dm L q t p :
  initialized p = true -> q <> 0 ->
  call (postEvent dm) L [LLightUserdata q; LTable t] p
  = Returns [] (enqueue q (built dm L t (s_defaultEventID p)) p).
Proof.
  intros I Q. rewrite postEvent_table by assumption.
  apply Z.eqb_neq in Q. rewrite Q. reflexivity.
Qed.

(** X11.  What is read under [i] and [l]: the integer Lua converts the
    value to, be it an integer, a float with an integral value or a
    string that reads as one, narrowed to [int] and to [long]; every
    other value, a number with a fraction included, leaves 0.  Nothing
    under [i] or [l] makes the call fail. *)
Theorem payload_integers dm L q t p :
  initialized p = true ->
  q <> 0 ->
  exists ev,
    call (postEvent dm) L [LLightUserdata q; LTable t] p = Returns [] (enqueue q ev p)
    /\ Wx.m_commandInt ev
       = C.to_int (match tointeger (lua_str2d L) (getstr "i" t) with
                   | Some n => n
                   | None => 0
                   end)
    /\ Wx.m_extraLong ev
       = C.to_long dm (match tointeger (lua_str2d L) (getstr "l" t) with
                       | Some n => n
                       | None => 0
                       end).
Proof.
  intros I Q. eexists. split; [apply posted; assumption|].
  destruct (built_fields dm L t (s_defaultEventID p)) as (_ & B & C0).
  split; assumption.
Qed.

Lemma payload_integers_witness :
  initialized configured = true
  /\ 43981 <> 0
  /\ exists ev,
       call (postEvent C.LLP64) plain_lane
         [LLightUserdata 43981;
          LTable [(LString "i", LString " 0x10 ");
                  (LString "l", LFloat (S754_finite false 3 (-1)))]] configured
       = Returns [] (enqueue 43981 ev configured)
       /\ Wx.m_commandInt ev = 16
       /\ Wx.m_extraLong ev = 0.
Proof.
  assert (Q : 43981 <> 0) by discriminate.
  split; [reflexivity|]. split; [exact Q|].
  exact (payload_integers C.LLP64 plain_lane 43981
           [(LString "i", LString " 0x10 ");
            (LString "l", LFloat (S754_finite false 3 (-1)))] configured eq_refl Q).
Defined.

(** X12.  The integer fields respect the C types: whatever the table
    holds, the event's integer is in the range of [int] and its long in
    the range of the platform's [long]; an integer under [i] or [l] that
    is in that range arrives unchanged, and any other arrives reduced
    modulo 2 to the width of the type. *)
Theorem payload_fits_C_types dm L q t p :
  initialized p = true ->
  q <> 0 ->
  exists ev,
    call (postEvent dm) L [LLightUserdata q; LTable t] p = Returns [] (enqueue q ev p)
    /\ fits C.int_bits (Wx.m_commandInt ev)
    /\ fits (C.long_bits dm) (Wx.m_extraLong ev)
    /\ (forall n, getstr "i" t = LInteger n ->
          (Wx.m_commandInt ev - n) mod 2 ^ C.int_bits = 0
          /\ (fits C.int_bits n -> Wx.m_commandInt ev = n))
    /\ (forall n, getstr "l" t = LInteger n ->
          (Wx.m_extraLong ev - n) mod 2 ^ C.long_bits dm = 0
          /\ (fits (C.long_bits dm) n -> Wx.m_extraLong ev = n)).
Proof.
  intros I Q. eexists. split; [apply posted; assumption|].
  destruct (built_fields dm L t (s_defaultEventID p)) as (_ & B & C0).
  rewrite B, C0. split; [apply wrap_fits; reflexivity|].
  split; [apply wrap_fits, long_bits_pos|]. split.
  - intros n E. unfold integer_or_0. rewrite E. cbn [tointeger tonumber]. split.
    + apply wrap_congruent. reflexivity.
    + intros F. apply wrap_exact; [reflexivity | exact F].
  - intros n E. unfold integer_or_0. rewrite E. cbn [tointeger tonumber]. split.
    + apply wrap_congruent, long_bits_pos.
    + intros F. apply wrap_exact; [apply long_bits_pos | exact F].
Qed.

Lemma payload_fits_C_types_witness :
  initialized configured = true
  /\ 43981 <> 0
  /\ fits (C.long_bits C.LP64) 1700000000000
  /\ exists ev,
       call (postEvent C.LP64) plain_lane
         [LLightUserdata 43981; LTable [(LString "l", LInteger 1700000000000)]] configured
       = Returns [] (enqueue 43981 ev configured)
       /\ Wx.m_extraLong ev = 1700000000000.
Proof.
  assert (Q : 43981 <> 0) by discriminate.
  assert (F : fits (C.long_bits C.LP64) 1700000000000)
    by (split; [discriminate | reflexivity]).
  split; [reflexivity|]. split; [exact Q|]. split; [exact F|].
  destruct (payload_fits_C_types C.LP64 plain_lane 43981
              [(LString "l", LInteger 1700000000000)] configured eq_refl Q)
    as (ev & E & _ & _ & _ & K).
  exists ev. split; [exact E|]. exact (proj2 (K 1700000000000 eq_refl) F).
Defined.








(** X14.  The three keys are read independently: for two data tables
    posted from the same Lua state to the same target, the events have
    the same string when the tables agree under [s], the same integer
    when they agree under [i], and the same long when they agree under
    [l], whatever else the tables hold. *)
Theorem payload_fields_are_independent dm L q t1 t2 p ev1 ev2 :
  initialized p = true ->
  q <> 0 ->
  call (postEvent dm) L [LLightUserdata q; LTable t1] p = Returns [] (enqueue q ev1 p) ->
  call (postEvent dm) L [LLightUserdata q; LTable t2] p = Returns [] (enqueue q ev2 p) ->
  (getstr "s" t1 = getstr "s" t2 -> Wx.m_cmdString ev1 = Wx.m_cmdString ev2)
  /\ (getstr "i" t1 = getstr "i" t2 -> Wx.m_commandInt ev1 = Wx.m_commandInt ev2)
  /\ (getstr "l" t1 = getstr "l" t2 -> Wx.m_extraLong ev1 = Wx.m_extraLong ev2).
Proof.
  intros I Q E1 E2.
  rewrite posted in E1, E2 by assumption.
  assert (B1 : built dm L t1 (s_defaultEventID p) = ev1).
  { injection E1 as E1. apply app_inv_head in E1. congruence. }
  assert (B2 : built dm L t2 (s_defaultEventID p) = ev2).
  { injection E2 as E2. apply app_inv_head in E2. congruence. }
  subst ev1 ev2.
  destruct (built_fields dm L t1 (s_defaultEventID p)) as (S1 & I1 & L1).
  destruct (built_fields dm L t2 (s_defaultEventID p)) as (S2 & I2 & L2).
  rewrite S1, S2, I1, I2, L1, L2.
  repeat split; intros ->; reflexivity.
Qed.

Lemma payload_fields_are_independent_witness :
  initialized configured = true
  /\ 43981 <> 0
  /\ exists ev1 ev2,
    call (postEvent C.LLP64) plain_lane
      [LLightUserdata 43981; LTable [(LString "s", LString "a"); (LString "i", LInteger 1)]]
      configured = Returns [] (enqueue 43981 ev1 configured)
    /\ call (postEvent C.LLP64) plain_lane
         [LLightUserdata 43981; LTable [(LString "i", LInteger 1); (LString "l", LInteger 9)]]
         configured = Returns [] (enqueue 43981 ev2 configured)
    /\ Wx.m_commandInt ev1 = Wx.m_commandInt ev2.
Proof.
  assert (Q : 43981 <> 0) by discriminate.
  split; [reflexivity|]. split; [exact Q|].
  eexists _, _. split; [reflexivity|]. split; [reflexivity|].
  exact (proj1 (proj2 (payload_fields_are_independent C.LLP64 plain_lane 43981
                         [(LString "s", LString "a"); (LString "i", LInteger 1)]
                         [(LString "i", LInteger 1); (LString "l", LInteger 9)]
                         configured _ _ eq_refl Q eq_refl eq_refl)) eq_refl).
Defined.

(** *** The stored id *)

(** X15.  Which ids configure the bridge: after an [init] call whose
    argument converts to the integer [id], the stored id is in the range
    of [int] and congruent to [id] modulo 2^32, and the module is left
    uninitialised exactly when [id] is congruent to -1, the sentinel
    itself being one such id and 4294967295 another. *)
Theorem init_and_the_sentinel L v rest p id :
  tointeger (lua_str2d L) v = Some id ->
  exists p',
    after_call (call init L (v :: rest) p) = Some p'
    /\ fits C.int_bits (s_defaultEventID p')
    /\ (s_defaultEventID p' - id) mod 2 ^ C.int_bits = 0
    /\ (initialized p' = false <-> (id + 1) mod 2 ^ C.int_bits = 0).
Proof.
  intros T. exists (store_id (C.to_int id) p).
  split; [apply init_stores; exact T|].
  split; [apply wrap_fits; reflexivity|].
  split; [apply wrap_congruent; reflexivity|].
  rewrite initialized_store, negb_false_iff, Z.eqb_eq.
  unfold C.to_int, C.wrap, C.int_bits, Wx.wxID_ANY.
  change (2 ^ (32 - 1)) with 2147483648. change (2 ^ 32) with 4294967296.
  split; intros H.
  - apply Z.mod_divide; [lia|].
    exists ((id + 2147483648) / 4294967296 + 0).
    pose proof (Z.div_mod (id + 2147483648) 4294967296). lia.
  - apply Z.mod_divide in H; [|lia]. destruct H as [k H].
    assert (E : id + 2147483648 = 2147483647 + k * 4294967296) by lia.
    rewrite E, Z.mod_add by lia. reflexivity.
Qed.

Lemma init_and_the_sentinel_witness :
  tointeger (lua_str2d plain_lane) (LInteger 4294967295) = Some 4294967295
  /\ exists p',
       after_call (call init plain_lane [LInteger 4294967295] configured) = Some p'
       /\ initialized p' = false.
Proof.
  split; [reflexivity|].
  destruct (init_and_the_sentinel plain_lane (LInteger 4294967295) [] configured
              4294967295 eq_refl) as (p' & E & _ & _ & K).
  exists p'. split; [exact E|]. apply K. reflexivity.
Defined.

(** *** Undefined behaviour *)

(** X16.  When [getPointer] has undefined behaviour: exactly when the
    module is initialised and the first argument is a userdata, full or
    light and not null, at whose address nothing readable lies.  An
    uninitialised module never dereferences anything. *)
Theorem getPointer_crashes_iff L args p :
  call getPointer L args p = Crashes
  <-> initialized p = true
      /\ exists a,
           ((exists block, nth_error args 0 = Some (LUserdata block) /\ a = Z.pos block)
            \/ (nth_error args 0 = Some (LLightUserdata a) /\ a <> 0))
           /\ peek (memory p) a = None.
Proof.
  split.
  - intros H. destruct (initialized p) eqn:I.
    2: { unfold initialized in I. apply negb_false_iff, Z.eqb_eq in I.
         rewrite getPointer_uninit in H by assumption. discriminate H. }
    split; [reflexivity|].
    destruct args as [|v rest];
      [rewrite getPointer_other in H by (cbn; auto); discriminate H|].
    destruct v;
      try (rewrite getPointer_other in H by (cbn; auto); discriminate H).
    + rewrite getPointer_light in H by assumption.
      destruct (Z.eqb_spec p0 0) as [|N]; [discriminate H|].
      destruct (peek (memory p) p0) eqn:W; [discriminate H|].
      exists p0. split; [right; split; [reflexivity | exact N] | exact W].
    + rewrite getPointer_wrapper in H by assumption.
      destruct (peek (memory p) (Z.pos block)) eqn:W; [discriminate H|].
      exists (Z.pos block). split; [|exact W].
      left. exists block. split; reflexivity.
  - intros (I & a & [(block & A & ->)|(A & N)] & W);
      (destruct args as [|v rest]; [discriminate A|]);
      cbn [nth_error] in A; injection A as ->.
    + rewrite getPointer_wrapper by assumption. rewrite W. reflexivity.
    + rewrite getPointer_light by assumption.
      apply Z.eqb_neq in N. rewrite N, W. reflexivity.
Qed.
